(** * kleaf/impl/ddk/gen_makefiles.py: generation of the DDK module
      Makefile and Kbuild files.

    The development embeds the generator of [gen_makefiles.py] as Rocq
    functions.  Python [str] values are [string]s of 8-bit characters,
    [pathlib.Path] values are records of an anchor and a list of names
    (a pure POSIX path), the output file system is a map from paths to
    file contents, and a run of the generator either finishes or stops
    with [sys.exit(1)] or an uncaught Python exception. *)

From Stdlib Require Import String Ascii List Bool Arith Lia.
Import ListNotations.
Open Scope list_scope.
Open Scope string_scope.

(** ** Python [str] operations *)

Module Str.

Definition nl_char : ascii := "010"%char.
Definition tab_char : ascii := "009"%char.
Definition dq_char : ascii := "034"%char.
Definition sq_char : ascii := "039"%char.

Definition nl : string := String nl_char "".
Definition tab : string := String tab_char "".
Definition dq : string := String dq_char "".
Definition sq : string := String sq_char "".

(** [s.startswith(p)] and [s.endswith(p)]. *)
Fixpoint startswith (s p : string) : bool :=
  match p, s with
  | EmptyString, _ => true
  | String a p', String b s' => Ascii.eqb a b && startswith s' p'
  | String _ _, EmptyString => false
  end.

Fixpoint drop (n : nat) (s : string) : string :=
  match n, s with
  | O, _ => s
  | S n', String _ s' => drop n' s'
  | S _, EmptyString => EmptyString
  end.

Fixpoint take (n : nat) (s : string) : string :=
  match n, s with
  | S n', String c s' => String c (take n' s')
  | _, _ => EmptyString
  end.

Definition endswith (s p : string) : bool :=
  Nat.leb (String.length p) (String.length s)
  && String.eqb (drop (String.length s - String.length p) s) p.

(** [needle in hay] for two strings: the substring test. *)
Fixpoint contains (hay needle : string) : bool :=
  startswith hay needle
  || match hay with
     | EmptyString => false
     | String _ hay' => contains hay' needle
     end.

(** [s.rfind(c)]: index of the last occurrence of [c], [None] for -1. *)
Fixpoint rfind (c : ascii) (s : string) : option nat :=
  match s with
  | EmptyString => None
  | String a s' =>
      match rfind c s' with
      | Some i => Some (S i)
      | None => if Ascii.eqb a c then Some 0 else None
      end
  end.

Definition lower_char (c : ascii) : ascii :=
  let n := nat_of_ascii c in
  if Nat.leb 65 n && Nat.leb n 90 then ascii_of_nat (n + 32) else c.

(** [s.lower()] on the ASCII letters. *)
Fixpoint lower (s : string) : string :=
  match s with
  | EmptyString => EmptyString
  | String c s' => String (lower_char c) (lower s')
  end.

(** [s.replace(old, new)] for a one-character [old]. *)
Fixpoint replace_char (old : ascii) (new : string) (s : string) : string :=
  match s with
  | EmptyString => EmptyString
  | String c s' =>
      (if Ascii.eqb c old then new else String c EmptyString)
      ++ replace_char old new s'
  end.

(** [sep.join(l)]. *)
Fixpoint join (sep : string) (l : list string) : string :=
  match l with
  | [] => EmptyString
  | [x] => x
  | x :: l' => x ++ sep ++ join sep l'
  end.

(** [s.split(sep)] for a one-character separator: never the empty list. *)
Fixpoint split (sep : ascii) (s : string) : list string :=
  match s with
  | EmptyString => [EmptyString]
  | String c s' =>
      if Ascii.eqb c sep then EmptyString :: split sep s'
      else match split sep s' with
           | [] => [String c EmptyString]
           | l :: ls => String c l :: ls
           end
  end.

(** [''.join(l)]: the strings of [l] one after the other. *)
Fixpoint cat (l : list string) : string :=
  match l with
  | [] => EmptyString
  | x :: l' => x ++ cat l'
  end.

Fixpoint forallb_str (f : ascii -> bool) (s : string) : bool :=
  match s with
  | EmptyString => true
  | String c s' => f c && forallb_str f s'
  end.

(** The string has no line break: it is one line of a text file. *)
Definition single_line (s : string) : bool :=
  forallb_str (fun c => negb (Ascii.eqb c nl_char)) s.

End Str.

(** ** Outcomes of a run

    A Python call either returns a value, or the process stops: through
    [sys.exit(status)] after logging an error (the function [die] of the
    generator), or through an exception that nothing catches.  Both ways
    of stopping end the process with a non-zero exit status. *)

Inductive exn : Type := TypeError | ValueError.

Inductive failure : Type :=
  | SysExit (status : nat) (logged : string)
  | Uncaught (e : exn).

Inductive result (A : Type) : Type :=
  | Ok (a : A)
  | Fail (f : failure).

Arguments Ok {A} a.
Arguments Fail {A} f.

Definition exit_status (f : option failure) : nat :=
  match f with
  | None => 0
  | Some (SysExit status _) => status
  | Some (Uncaught _) => 1
  end.

(** ** [textwrap.dedent] *)

Module Textwrap.
Import Str.

Definition is_ws (c : ascii) : bool :=
  Ascii.eqb c " "%char || Ascii.eqb c tab_char.

(** A line made of spaces and tabs only (or of nothing). *)
Definition blank (l : string) : bool := forallb_str is_ws l.

Fixpoint leading_ws (l : string) : string :=
  match l with
  | EmptyString => EmptyString
  | String c l' => if is_ws c then String c (leading_ws l') else EmptyString
  end.

Fixpoint common_prefix (a b : string) : string :=
  match a, b with
  | String x a', String y b' =>
      if Ascii.eqb x y then String x (common_prefix a' b') else EmptyString
  | _, _ => EmptyString
  end.

(** One round of the loop over the indents of the non-blank lines. *)
Definition margin_step (margin : option string) (l : string) : option string :=
  if blank l then margin
  else
    let indent := leading_ws l in
    match margin with
    | None => Some indent
    | Some m =>
        if startswith indent m then Some m
        else if startswith m indent then Some indent
        else Some (common_prefix m indent)
    end.

Definition strip_margin (m l : string) : string :=
  if startswith l m then drop (String.length m) l else l.

(** Whitespace-only lines become empty, the longest common leading
    whitespace of the other lines is removed from each of them. *)
Definition dedent (text : string) : string :=
  let lines := map (fun l => if blank l then EmptyString else l)
                   (split nl_char text) in
  match fold_left margin_step lines None with
  | Some m => join nl (map (strip_margin m) lines)
  | None => join nl lines
  end.

End Textwrap.

(** ** [shlex.quote] *)

Module Shlex.
Import Str.

(** The characters of [[\w@%+=:,./-]] (ASCII): those that need no quoting. *)
Definition safe_char (c : ascii) : bool :=
  let n := nat_of_ascii c in
  (Nat.leb 48 n && Nat.leb n 57)
  || (Nat.leb 65 n && Nat.leb n 90)
  || (Nat.leb 97 n && Nat.leb n 122)
  || existsb (Ascii.eqb c)
       ["_"; "@"; "%"; "+"; "="; ":"; ","; "."; "/"; "-"]%char.

Definition quote (s : string) : string :=
  if String.eqb s "" then sq ++ sq
  else if forallb_str safe_char s then s
  else sq ++ replace_char sq_char (sq ++ dq ++ sq ++ dq ++ sq) s ++ sq.

End Shlex.

(** ** [os.path.join] (posixpath) *)

Module OsPath.
Import Str.

Definition join_step (path b : string) : string :=
  if startswith b "/" then b
  else if String.eqb path "" || endswith path "/" then path ++ b
  else path ++ "/" ++ b.

(** [os.path.join] applied to the unpacked list [args]: the first
    argument is required, a call with no argument raises [TypeError]. *)
Definition join (args : list string) : result string :=
  match args with
  | [] => Fail (Uncaught TypeError)
  | a :: p => Ok (fold_left join_step p a)
  end.

End OsPath.

(** ** [pathlib.Path] (pure POSIX paths)

    A path is its root (none, one slash, or exactly two slashes) and
    the list of its names; [parts] puts the root, when there is one, in
    front of the names, as Python's [parts] tuple does. *)

Module Pathlib.
Import Str.

Inductive anchor : Type := Relative | Root | Root2.

Record PurePath : Type := mkPath { root : anchor; names : list string }.

Definition root_str (a : anchor) : string :=
  match a with
  | Relative => ""
  | Root => "/"
  | Root2 => "//"
  end.

Definition anchor_eqb (a b : anchor) : bool :=
  match a, b with
  | Relative, Relative | Root, Root | Root2, Root2 => true
  | _, _ => false
  end.

Fixpoint names_eqb (l1 l2 : list string) : bool :=
  match l1, l2 with
  | [], [] => true
  | x :: l1', y :: l2' => String.eqb x y && names_eqb l1' l2'
  | _, _ => false
  end.

(** [p == q]. *)
Definition path_eqb (p q : PurePath) : bool :=
  anchor_eqb (root p) (root q) && names_eqb (names p) (names q).

(** [p.parts]. *)
Definition parts (p : PurePath) : list string :=
  match root p with
  | Relative => names p
  | a => root_str a :: names p
  end.

(** [str(p)]: the empty relative path prints as a dot. *)
Definition str (p : PurePath) : string :=
  match root p, names p with
  | Relative, [] => "."
  | a, l => root_str a ++ join "/" l
  end.

(** [pathlib.Path(s)] for one string: the names are the components
    between slashes, the empty ones and the dots left out. *)
Definition parse (s : string) : PurePath :=
  let a :=
    if startswith s "/" then
      if startswith (drop 1 s) "/" && negb (startswith (drop 2 s) "/")
      then Root2 else Root
    else Relative in
  mkPath a
    (filter (fun x => negb (String.eqb x "") && negb (String.eqb x "."))
            (split "/"%char s)).

(** [p / q]: a [q] with a root replaces [p]. *)
Definition joinpath (p q : PurePath) : PurePath :=
  match root q with
  | Relative => mkPath (root p) (names p ++ names q)%list
  | _ => q
  end.

(** [pathlib.Path] applied to the unpacked list [segments]. *)
Definition Path (segments : list string) : PurePath :=
  fold_left (fun p s => joinpath p (parse s)) segments (mkPath Relative []).

(** [p.parent]: the root and the empty path are their own parent. *)
Definition parent (p : PurePath) : PurePath :=
  mkPath (root p) (removelast (names p)).

(** [p.name]. *)
Definition name (p : PurePath) : string := last (names p) "".

(** [p.suffix]: from the last dot of the name on, when that dot is
    neither the first nor the last character of the name. *)
Definition suffix (p : PurePath) : string :=
  let nm := name p in
  match rfind "."%char nm with
  | Some i =>
      if Nat.ltb 0 i && Nat.ltb i (String.length nm - 1)
      then drop i nm else ""
  | None => ""
  end.

(** [p.with_suffix(sfx)]. *)
Definition with_suffix (p : PurePath) (sfx : string) : result PurePath :=
  if contains sfx "/" then Fail (Uncaught ValueError)
  else if (negb (String.eqb sfx "") && negb (startswith sfx "."))
          || String.eqb sfx "."
  then Fail (Uncaught ValueError)
  else
    let nm := name p in
    if String.eqb nm "" then Fail (Uncaught ValueError)
    else
      let old_suffix := suffix p in
      let nm' :=
        if String.eqb old_suffix "" then nm ++ sfx
        else take (String.length nm - String.length old_suffix) nm ++ sfx in
      Ok (mkPath (root p) (removelast (names p) ++ [nm'])%list).

Fixpoint names_prefix (q p : list string) : bool :=
  match q, p with
  | [], _ => true
  | x :: q', y :: p' => String.eqb x y && names_prefix q' p'
  | _ :: _, [] => false
  end.

(** [p.relative_to(q)]: [q] has to be [p] or one of its parents. *)
Definition relative_to (p q : PurePath) : result PurePath :=
  if anchor_eqb (root p) (root q) && names_prefix (names q) (names p)
  then Ok (mkPath Relative (skipn (List.length (names q)) (names p)))
  else Fail (Uncaught ValueError).

(** [p.is_relative_to(q)]. *)
Definition is_relative_to (p q : PurePath) : bool :=
  match relative_to p q with
  | Ok _ => true
  | Fail _ => false
  end.

End Pathlib.

(** ** State and failure

    The generator is sequential code that writes files and may stop.
    [M S A] is a computation over a state [S] that returns an [A] or
    fails; the state is the output file system for the process, and the
    text written so far for the body of a [with open(..., "w")] block. *)

Definition M (S A : Type) : Type := S -> S * result A.

Definition ret {S A : Type} (a : A) : M S A := fun s => (s, Ok a).

Definition bind {S A B : Type} (m : M S A) (k : A -> M S B) : M S B :=
  fun s =>
    match m s with
    | (s', Ok a) => k a s'
    | (s', Fail f) => (s', Fail f)
    end.

Definition lift {S A : Type} (r : result A) : M S A := fun s => (s, r).

Notation "x <- m ;; k" := (bind m (fun x => k))
  (at level 61, m at next level, right associativity).
Notation "m ;; k" := (bind m (fun _ => k))
  (at level 61, right associativity).

(** [for x in l: body(x)] *)
Fixpoint for_each {S A : Type} (l : list A) (body : A -> M S unit) : M S unit :=
  match l with
  | [] => ret tt
  | x :: l' => body x ;; for_each l' body
  end.

(** [for x in l: acc = body(acc, x)] for a local variable [acc]. *)
Fixpoint fold_m {S A B : Type} (body : B -> A -> M S B) (l : list A) (acc : B)
  : M S B :=
  match l with
  | [] => ret acc
  | x :: l' => acc' <- body acc x ;; fold_m body l' acc'
  end.

Definition failure_of {A : Type} (r : result A) : option failure :=
  match r with
  | Ok _ => None
  | Fail f => Some f
  end.

(** ** The generator *)

Module GenMakefiles.
Import Str Pathlib.

(** The files of the output tree, by path.  Directories are not
    tracked: [os.makedirs(..., exist_ok=True)] changes no file, and
    input/output errors are outside the model.  The model is of the
    runs in which every [os.makedirs] and [open] succeeds and in which
    two different paths are two different files; [tree_safe], further
    down, is a condition on the arguments under which the run cannot
    break either of the two by itself. *)
Definition FS : Type := PurePath -> option string.

Definition write_file (fs : FS) (p : PurePath) (content : string) : FS :=
  fun q => if path_eqb q p then Some content else fs q.

(** [os.makedirs(p, exist_ok=True)], for a [p] that can be made a
    directory. *)
Definition makedirs (p : PurePath) : M FS unit := ret tt.

(** [out_file.write(s)] *)
Definition write (s : string) : M string unit :=
  fun text => (text ++ s, Ok tt).

(** [with open(p, "w") as out_file: body], for a [p] that can be
    opened for writing: the file is truncated, and holds what [body]
    wrote when the block is left, normally or not. *)
Definition with_open (p : PurePath) (body : M string unit) : M FS unit :=
  fun fs =>
    let '(text, r) := body "" in
    (write_file fs p text, r).

Definition _SOURCE_SUFFIXES : list string := [".c"; ".rs"; ".s"].

(** [die(msg)]: [logging.error(msg)] then [sys.exit(1)]. *)
Definition die {S A : Type} (msg : string) : M S A :=
  fun s => (s, Fail (SysExit 1 msg)).

(** The two lines added to [content] for one dependency (lines 54-57). *)
Definition symvers_lines (rel_root : string) (module_symvers : PurePath)
  : string :=
  Textwrap.dedent
    ("            # Include symbol: " ++ str module_symvers ++ nl ++
     "            EXTRA_SYMBOLS += $(OUT_DIR)/$(M)/" ++ rel_root ++ "/"
       ++ str module_symvers ++ nl ++
     "            ").

(** The closing stanza of the Makefile (lines 59-62). *)
Definition makefile_stanza : string :=
  Textwrap.dedent
    ("        modules modules_install clean:" ++ nl ++
     "        " ++ tab ++ "$(MAKE) -C $(KERNEL_SRC) M=$(M) $(KBUILD_OPTIONS) KBUILD_EXTRA_SYMBOLS="
       ++ dq ++ "$(EXTRA_SYMBOLS)" ++ dq ++ " $(@)" ++ nl ++
     "        ").

Definition _gen_makefile (package : PurePath)
    (module_symvers_list : list PurePath) (output_makefile : PurePath)
  : M FS unit :=
  rel_root <- lift (OsPath.join (repeat ".." (List.length (parts package)))) ;;
  let content := "" in
  let content :=
    fold_left (fun content module_symvers =>
                 content ++ symvers_lines rel_root module_symvers)
              module_symvers_list content in
  let content := content ++ makefile_stanza in
  makedirs (parent output_makefile) ;;
  with_open output_makefile (write content).

Definition _write_ccflag (ccflag : string) : M string unit :=
  write (Textwrap.dedent
           ("        ccflags-y += " ++ Shlex.quote ccflag ++ nl ++
            "        ")).

(** One record of the JSON array read from the options file. *)
Record copt : Type := mkCopt { expanded : string; is_path : bool }.

(** [copt_file] is [None] when no file was given, and otherwise the
    array that [json.load] reads from it, for a file that holds a JSON
    array of objects with a string [expanded] and a boolean [is_path];
    any other content of the file is outside the model. *)
Definition _handle_copt_file (copt_file : option (list copt))
    (rel_root : PurePath) : M string unit :=
  match copt_file with
  | None => ret tt
  | Some records =>
      write nl ;;
      write (Textwrap.dedent
               ("        # copts" ++ nl ++
                "        ")) ;;
      for_each records (fun d =>
        let expanded := expanded d in
        let expanded :=
          if is_path d then str (joinpath rel_root (parse expanded))
          else expanded in
        _write_ccflag expanded)
  end.

(** The body of the loop that collects [rel_srcs] (lines 92-94). *)
Definition collect_rel_src (package : PurePath) (rel_srcs : list PurePath)
    (src : PurePath) : M FS (list PurePath) :=
  if is_relative_to src package then
    rel <- lift (relative_to src package) ;;
    ret (rel_srcs ++ [rel])%list
  else ret rel_srcs.

(** The body of the loop over [rel_srcs] (lines 109-128); leaving the
    body early is Python's [continue]. *)
Definition kbuild_src (package kernel_module_out src : PurePath)
  : M string unit :=
  (* Ignore non-exported headers specified in srcs *)
  if contains ".h" (lower (suffix src)) then ret tt
  else if negb (existsb (String.eqb (lower (suffix src))) _SOURCE_SUFFIXES)
  then die ("Invalid source " ++ str src)
  else
    (* Ignore self (don't omit obj-foo += foo.o) *)
    ko <- lift (with_suffix src ".ko") ;;
    if path_eqb ko kernel_module_out then
      write (Textwrap.dedent
               ("                    # The module " ++ str kernel_module_out
                  ++ " has a source file " ++ str src ++ nl ++
                "                "))
    else if negb (is_relative_to src (parent kernel_module_out)) then
      die (str src ++ " is not a valid source because it is not under "
             ++ str (parent kernel_module_out))
    else
      obj <- lift (with_suffix src ".o") ;;
      out <- lift (relative_to obj (parent kernel_module_out)) ;;
      stem <- lift (with_suffix kernel_module_out "") ;;
      write (Textwrap.dedent
               ("                # Source: " ++ str (joinpath package src) ++ nl ++
                "                " ++ name stem ++ "-y += " ++ str out ++ nl ++
                "            ")).

(** The relative root of the Kbuild file (lines 134-135). *)
Definition kbuild_rel_root (package kernel_module_out : PurePath) : PurePath :=
  let rel_root_reversed := joinpath package (parent kernel_module_out) in
  Path (repeat ".." (List.length (parts rel_root_reversed))).

(** The body of the loop over [include_dirs] (lines 137-141). *)
Definition kbuild_include (rel_root include_dir : PurePath) : M string unit :=
  write (Textwrap.dedent
           ("                # Include " ++ str include_dir ++ nl ++
            "                ")) ;;
  _write_ccflag ("-I$(srctree)/$(src)/" ++ str rel_root ++ "/"
                   ++ str include_dir).

(** What is written inside [with open(kbuild, "w")] (lines 103-152). *)
Definition kbuild_body (kernel_module_out : PurePath)
    (rel_srcs include_dirs : list PurePath) (package : PurePath)
    (local_defines : list string) (copt_file : option (list copt))
  : M string unit :=
  obj <- lift (with_suffix kernel_module_out ".o") ;;
  write (Textwrap.dedent
           ("            # Build " ++ str (joinpath package kernel_module_out) ++ nl ++
            "            obj-m += " ++ name obj ++ nl ++
            "            ")) ;;
  write nl ;;
  for_each rel_srcs (kbuild_src package kernel_module_out) ;;
  write nl ;;
  let rel_root := kbuild_rel_root package kernel_module_out in
  for_each include_dirs (kbuild_include rel_root) ;;
  match local_defines with
  | [] => ret tt
  | _ :: _ =>
      write nl ;;
      write (Textwrap.dedent
               ("                # local defines" ++ nl ++
                "                "))
  end ;;
  for_each local_defines (fun local_define =>
    _write_ccflag ("-D" ++ local_define)) ;;
  _handle_copt_file copt_file rel_root.

Definition gen_ddk_makefile (output_makefiles kernel_module_out : PurePath)
    (kernel_module_srcs include_dirs module_symvers_list : list PurePath)
    (package : PurePath) (local_defines : list string)
    (copt_file : option (list copt))
  : M FS unit :=
  _gen_makefile package module_symvers_list
    (joinpath output_makefiles (parse "Makefile")) ;;
  rel_srcs <- fold_m (collect_rel_src package) kernel_module_srcs [] ;;
  (if negb (String.eqb (suffix kernel_module_out) ".ko") then
     die ("Invalid output: " ++ str kernel_module_out
            ++ "; must end with .ko")
   else ret tt) ;;
  let kbuild :=
    joinpath (joinpath output_makefiles (parent kernel_module_out))
             (parse "Kbuild") in
  makedirs (parent kbuild) ;;
  with_open kbuild
    (kbuild_body kernel_module_out rel_srcs include_dirs package
                 local_defines copt_file) ;;
  let top_kbuild := joinpath output_makefiles (parse "Kbuild") in
  if negb (path_eqb top_kbuild kbuild) then
    makedirs output_makefiles ;;
    with_open top_kbuild
      (write (Textwrap.dedent
                ("                # Build " ++ str (joinpath package kernel_module_out) ++ nl ++
                 "                obj-y += " ++ str (parent kernel_module_out) ++ "/" ++ nl ++
                 "                ")))
  else ret tt.

(** A run from the file system [fs]: the files afterwards, and how the
    process ended ([None] is exit status 0). *)
Definition run (m : M FS unit) (fs : FS) : FS * option failure :=
  let '(fs', r) := m fs in (fs', failure_of r).

End GenMakefiles.

(** ** Vocabulary of the statements *)

(** A line that begins with a character other than a space or a tab. *)
Definition starts_flush (b : string) : bool :=
  match b with
  | EmptyString => false
  | String c _ => negb (Textwrap.is_ws c)
  end.

(** No name of the path holds a line break. *)
Definition path_single_line (p : Pathlib.PurePath) : bool :=
  forallb Str.single_line (Pathlib.names p).

(** The sources that the first loop of [gen_ddk_makefile] keeps, each
    made relative to the package. *)
Definition rel_srcs_of (package : Pathlib.PurePath)
    (kernel_module_srcs : list Pathlib.PurePath) : list Pathlib.PurePath :=
  flat_map (fun src =>
              match Pathlib.relative_to src package with
              | Ok rel => [rel]
              | Fail _ => []
              end) kernel_module_srcs.

(** [p.stem]: the name without its suffix. *)
Definition stem (p : Pathlib.PurePath) : string :=
  Str.take (String.length (Pathlib.name p) - String.length (Pathlib.suffix p))
           (Pathlib.name p).

(** [dir in src.parents]: the source lies below the directory. *)
Definition resides_under (src dir : Pathlib.PurePath) : bool :=
  Pathlib.is_relative_to src dir && negb (Pathlib.path_eqb src dir).

(** The flag value of one record of the options file (lines 173-177). *)
Definition copt_value (rel_root : Pathlib.PurePath) (d : GenMakefiles.copt)
  : string :=
  if GenMakefiles.is_path d
  then Pathlib.str (Pathlib.joinpath rel_root
                      (Pathlib.parse (GenMakefiles.expanded d)))
  else GenMakefiles.expanded d.

(** The same value in the words of the specification: for a path, the
    relative root put in front of the expanded string. *)
Definition copt_value_prefixed (rel_root : Pathlib.PurePath)
    (d : GenMakefiles.copt) : string :=
  if GenMakefiles.is_path d
  then Pathlib.str rel_root ++ "/" ++ GenMakefiles.expanded d
  else GenMakefiles.expanded d.

(** The computation can only stop with a non-zero exit status. *)
Definition fatal_only {S A : Type} (m : M S A) : Prop :=
  forall s s' f, m s = (s', Fail f) -> exit_status (Some f) <> 0.

(** An output tree without any file. *)
Definition empty_fs : GenMakefiles.FS := fun _ => None.

(** The lines of a text file. *)
Definition lines (text : string) : list string := Str.split Str.nl_char text.

(** The three files of a run: [output_makefiles / "Makefile"] (line 88),
    the Kbuild file of the module (line 99) and the top-level Kbuild
    file (line 154). *)
Definition makefile_of (output_makefiles : Pathlib.PurePath)
  : Pathlib.PurePath :=
  Pathlib.joinpath output_makefiles (Pathlib.parse "Makefile").

Definition kbuild_of (output_makefiles kernel_module_out : Pathlib.PurePath)
  : Pathlib.PurePath :=
  Pathlib.joinpath
    (Pathlib.joinpath output_makefiles (Pathlib.parent kernel_module_out))
    (Pathlib.parse "Kbuild").

Definition top_kbuild_of (output_makefiles : Pathlib.PurePath)
  : Pathlib.PurePath :=
  Pathlib.joinpath output_makefiles (Pathlib.parse "Kbuild").

(** The tests of the loop body (lines 111-124) that let the loop go on:
    the source passes the header test, or it is compilable and either
    the module's own source or below the directory of the module. *)
Definition accepted (kernel_module_out src : Pathlib.PurePath) : bool :=
  Str.contains ".h" (Str.lower (Pathlib.suffix src))
  || (existsb (String.eqb (Str.lower (Pathlib.suffix src)))
              GenMakefiles._SOURCE_SUFFIXES
      && (match Pathlib.with_suffix src ".ko" with
          | Ok ko => Pathlib.path_eqb ko kernel_module_out
          | Fail _ => false
          end
          || resides_under src (Pathlib.parent kernel_module_out))).

(** A name that is an ordinary directory or file name: not empty, not
    a dot, not a double dot, without slash and without NUL character. *)
Definition plain_name (n : string) : bool :=
  negb (String.eqb n "") && negb (String.eqb n ".")
  && negb (String.eqb n "..") && negb (Str.contains n "/")
  && Str.forallb_str (fun c => negb (Ascii.eqb c "000"%char)) n.

(** The arguments keep the three files of a run out of each other's
    way: the module output is relative, the output directory and the
    module output are made of ordinary names, and the directory of the
    module output does not begin with [Makefile] or [Kbuild].  Then the
    directories that lines 64, 100 and 156 create and the files that
    lines 65, 102 and 157 open are different paths of the output tree,
    and the two Kbuild files are one file only when they are one path. *)
Definition tree_safe (output_makefiles kernel_module_out : Pathlib.PurePath)
  : bool :=
  Pathlib.anchor_eqb (Pathlib.root kernel_module_out) Pathlib.Relative
  && forallb plain_name (Pathlib.names output_makefiles)
  && forallb plain_name (Pathlib.names kernel_module_out)
  && match Pathlib.names (Pathlib.parent kernel_module_out) with
     | [] => true
     | d :: _ => negb (String.eqb d "Makefile") && negb (String.eqb d "Kbuild")
     end.

(** What a block of writes adds to an empty file, and how it ends. *)
Definition written (m : M string unit) : string := fst (m "").

Definition ending (m : M string unit) : result unit := snd (m "").

(** The block only appends: what it adds and how it ends do not depend
    on the text that is already in the file, which it leaves in place. *)
Definition appends (m : M string unit) : Prop :=
  forall text, m text = (text ++ written m, ending m).

(** The computation never stops early. *)
Definition never_fails {S : Type} (m : M S unit) : Prop :=
  forall s, exists s', m s = (s', Ok tt).

(** A sequence of [open(p, "w")] writes, the oldest first. *)
Definition apply_writes (ws : list (Pathlib.PurePath * string))
    (fs : GenMakefiles.FS) : GenMakefiles.FS :=
  fold_left (fun fs w => GenMakefiles.write_file fs (fst w) (snd w)) ws fs.

(** The content that the last write to [p] left, if [p] was written. *)
Fixpoint last_write (ws : list (Pathlib.PurePath * string))
    (p : Pathlib.PurePath) : option string :=
  match ws with
  | [] => None
  | w :: ws' =>
      match last_write ws' p with
      | Some c => Some c
      | None => if Pathlib.path_eqb p (fst w) then Some (snd w) else None
      end
  end.

(** * Properties *)

(** ** Strings *)

Section StringFacts.
Import Str.

Lemma append_nil_r (s : string) : s ++ "" = s.
Proof. induction s as [|c s IH]; simpl; [reflexivity | now rewrite IH]. Qed.

Lemma append_assoc (a b c : string) : (a ++ b) ++ c = a ++ b ++ c.
Proof. induction a as [|x a IH]; simpl; [reflexivity | now rewrite IH]. Qed.

Lemma forallb_str_app (f : ascii -> bool) (a b : string) :
  forallb_str f (a ++ b) = forallb_str f a && forallb_str f b.
Proof.
  induction a as [|c a IH]; simpl; [reflexivity|].
  rewrite IH. now rewrite andb_assoc.
Qed.

Lemma single_line_app (a b : string) :
  single_line (a ++ b) = single_line a && single_line b.
Proof. apply forallb_str_app. Qed.

Lemma split_single_line (a : string) :
  single_line a = true -> split nl_char a = [a].
Proof.
  induction a as [|c a IH]; simpl; intros H; [reflexivity|].
  apply andb_true_iff in H as [Hc Ha].
  apply negb_true_iff in Hc. rewrite Hc. now rewrite (IH Ha).
Qed.

Lemma split_app_nl (a b : string) :
  single_line a = true ->
  split nl_char (a ++ nl ++ b) = a :: split nl_char b.
Proof.
  change (nl ++ b) with (String nl_char b).
  induction a as [|c a IH]; simpl; intros H; [reflexivity|].
  apply andb_true_iff in H as [Hc Ha].
  apply negb_true_iff in Hc. rewrite Hc. now rewrite (IH Ha).
Qed.

Lemma startswith_nil_r (s : string) : startswith s "" = true.
Proof. destruct s; reflexivity. Qed.

Lemma startswith_app (a b : string) : startswith (a ++ b) a = true.
Proof.
  induction a as [|c a IH]; simpl; [apply startswith_nil_r|].
  now rewrite Ascii.eqb_refl, IH.
Qed.

Lemma drop_app (a b : string) : drop (String.length a) (a ++ b) = b.
Proof. induction a as [|c a IH]; simpl; [reflexivity | exact IH]. Qed.

End StringFacts.

(** ** Dedenting the templates of the generator *)

Section DedentFacts.
Import Str Textwrap.

Lemma blank_app (a b : string) : blank (a ++ b) = blank a && blank b.
Proof. apply forallb_str_app. Qed.

Lemma blank_single_line (s : string) : blank s = true -> single_line s = true.
Proof.
  unfold single_line, blank.
  induction s as [|c s IH]; simpl; intros H; [reflexivity|].
  apply andb_true_iff in H as [Hc Hs]. rewrite (IH Hs), andb_true_r.
  unfold is_ws in Hc. apply orb_true_iff in Hc as [Hc|Hc];
    apply Ascii.eqb_eq in Hc; subst c; reflexivity.
Qed.

Lemma leading_ws_app (ind b : string) :
  blank ind = true -> leading_ws (ind ++ b) = ind ++ leading_ws b.
Proof.
  induction ind as [|c ind IH]; simpl; intros H; [reflexivity|].
  apply andb_true_iff in H as [Hc Hi]. rewrite Hc. now rewrite (IH Hi).
Qed.

Lemma strip_margin_app (m b : string) : strip_margin m (m ++ b) = b.
Proof. unfold strip_margin. rewrite startswith_app. apply drop_app. Qed.

Lemma strip_margin_nil (m : string) : strip_margin m "" = "".
Proof. unfold strip_margin. destruct m; reflexivity. Qed.

Lemma starts_flush_blank (b : string) : starts_flush b = true -> blank b = false.
Proof.
  destruct b as [|c b]; [discriminate|].
  unfold starts_flush, blank. cbn [forallb_str leading_ws].
  intros H. apply negb_true_iff in H. now rewrite H.
Qed.

Lemma starts_flush_leading (b : string) :
  starts_flush b = true -> leading_ws b = "".
Proof.
  destruct b as [|c b]; [discriminate|].
  unfold starts_flush, blank. cbn [forallb_str leading_ws].
  intros H. apply negb_true_iff in H. now rewrite H.
Qed.

(** A template of one line, indented by [ind], closed on a line that
    holds only the indentation [ind'] of the closing quotes. *)
Lemma dedent_one (ind ind' b : string) :
  blank ind = true -> blank ind' = true ->
  starts_flush b = true -> single_line b = true ->
  dedent (ind ++ b ++ nl ++ ind') = b ++ nl.
Proof.
  intros Hi Hi' Hb Hl. unfold dedent.
  rewrite <- append_assoc, split_app_nl
    by (rewrite single_line_app, (blank_single_line _ Hi), Hl; reflexivity).
  rewrite (split_single_line ind') by now apply blank_single_line.
  cbn [map]. rewrite blank_app, (starts_flush_blank _ Hb), andb_false_r, Hi'.
  cbn [fold_left]. unfold margin_step at 2.
  rewrite blank_app, (starts_flush_blank _ Hb), andb_false_r.
  rewrite (leading_ws_app _ _ Hi), (starts_flush_leading _ Hb), append_nil_r.
  cbn. rewrite strip_margin_app, strip_margin_nil. reflexivity.
Qed.

(** A template of two lines with the same indentation, whose first
    line begins flush. *)
Lemma dedent_two (ind ind' b1 b2 : string) :
  blank ind = true -> blank ind' = true ->
  starts_flush b1 = true -> single_line b1 = true ->
  blank b2 = false -> single_line b2 = true ->
  dedent (ind ++ b1 ++ nl ++ ind ++ b2 ++ nl ++ ind') = b1 ++ nl ++ b2 ++ nl.
Proof.
  intros Hi Hi' Hb1 Hl1 Hb2 Hl2. unfold dedent.
  rewrite <- append_assoc, split_app_nl
    by (rewrite single_line_app, (blank_single_line _ Hi), Hl1; reflexivity).
  rewrite <- append_assoc, split_app_nl
    by (rewrite single_line_app, (blank_single_line _ Hi), Hl2; reflexivity).
  rewrite (split_single_line ind') by now apply blank_single_line.
  cbn [map].
  rewrite !blank_app, (starts_flush_blank _ Hb1), Hb2, andb_false_r, Hi'.
  cbn [fold_left]. unfold margin_step.
  rewrite !blank_app, (starts_flush_blank _ Hb1), Hb2, andb_false_r.
  rewrite !(leading_ws_app _ _ Hi), (starts_flush_leading _ Hb1), append_nil_r.
  rewrite startswith_app. cbn.
  rewrite !strip_margin_app, strip_margin_nil. reflexivity.
Qed.

End DedentFacts.

(** ** Paths *)

Section PathFacts.
Import Str Pathlib.

Lemma names_eqb_eq (l1 l2 : list string) : names_eqb l1 l2 = true <-> l1 = l2.
Proof.
  revert l2. induction l1 as [|x l1 IH]; intros [|y l2]; simpl;
    try (split; [discriminate | intros H; discriminate H]);
    [split; reflexivity|].
  rewrite andb_true_iff, String.eqb_eq, IH.
  split; [intros [-> ->]; reflexivity | intros H; now inversion H].
Qed.

Lemma anchor_eqb_eq (a b : anchor) : anchor_eqb a b = true <-> a = b.
Proof. destruct a, b; simpl; split; intros H; try reflexivity; discriminate. Qed.

Lemma path_eqb_eq (p q : PurePath) : path_eqb p q = true <-> p = q.
Proof.
  destruct p as [a l], q as [b m]. unfold path_eqb. simpl.
  rewrite andb_true_iff, anchor_eqb_eq, names_eqb_eq.
  split; [intros [-> ->]; reflexivity | intros H; now inversion H].
Qed.

Lemma path_eqb_refl (p : PurePath) : path_eqb p p = true.
Proof. now apply path_eqb_eq. Qed.

Lemma path_eqb_neq (p q : PurePath) : path_eqb p q = false <-> p <> q.
Proof.
  split.
  - intros H E. apply path_eqb_eq in E. congruence.
  - intros H. destruct (path_eqb p q) eqn:E; [|reflexivity].
    apply path_eqb_eq in E. contradiction.
Qed.

Lemma names_prefix_app (q r : list string) : names_prefix q (q ++ r)%list = true.
Proof.
  induction q as [|x q IH]; simpl; [reflexivity|].
  now rewrite String.eqb_refl, IH.
Qed.

Lemma names_prefix_inv (q p : list string) :
  names_prefix q p = true -> p = (q ++ skipn (List.length q) p)%list.
Proof.
  revert p. induction q as [|x q IH]; intros [|y p]; simpl; intros H;
    try reflexivity; try discriminate.
  apply andb_true_iff in H as [Hx Hq]. apply String.eqb_eq in Hx. subst y.
  now rewrite <- (IH _ Hq).
Qed.

Lemma skipn_app_length (q r : list string) :
  skipn (List.length q) (q ++ r)%list = r.
Proof. induction q as [|x q IH]; simpl; [reflexivity | exact IH]. Qed.

(** The path made of [n] double dots. *)
Lemma Path_dotdots_from (n : nat) (acc : list string) :
  fold_left (fun p s => joinpath p (parse s)) (repeat ".." n)
            (mkPath Relative acc)
  = mkPath Relative (acc ++ repeat ".." n)%list.
Proof.
  revert acc. induction n as [|n IH]; intros acc; simpl.
  - now rewrite app_nil_r.
  - change (joinpath (mkPath Relative acc) (parse ".."))
      with (mkPath Relative (acc ++ [".."])%list).
    rewrite IH, <- app_assoc. reflexivity.
Qed.

Lemma Path_dotdots (n : nat) :
  Path (repeat ".." n) = mkPath Relative (repeat ".." n).
Proof. unfold Path. now rewrite Path_dotdots_from. Qed.

(** [is_relative_to] holds exactly when [relative_to] returns. *)
Lemma is_relative_to_true (p q : PurePath) :
  is_relative_to p q = true ->
  relative_to p q
  = Ok (mkPath Relative (skipn (List.length (names q)) (names p)))
  /\ root p = root q
  /\ names p = (names q ++ skipn (List.length (names q)) (names p))%list.
Proof.
  unfold is_relative_to, relative_to.
  destruct (anchor_eqb (root p) (root q)) eqn:Ha; simpl; [|discriminate].
  destruct (names_prefix (names q) (names p)) eqn:Hn; [|discriminate].
  intros _. apply anchor_eqb_eq in Ha. apply names_prefix_inv in Hn.
  repeat split; assumption.
Qed.

Lemma is_relative_to_false (p q : PurePath) :
  is_relative_to p q = false -> relative_to p q = Fail (Uncaught ValueError).
Proof.
  unfold is_relative_to, relative_to.
  destruct (anchor_eqb (root p) (root q) && names_prefix (names q) (names p));
    [discriminate | reflexivity].
Qed.

End PathFacts.

(** ** Sequencing and loops *)

Section MonadFacts.
Context {S : Type}.

Lemma bind_ok {A B : Type} (m : M S A) (k : A -> M S B) (s s' : S) (a : A) :
  m s = (s', Ok a) -> bind m k s = k a s'.
Proof. intros H. unfold bind. now rewrite H. Qed.

Lemma bind_fail {A B : Type} (m : M S A) (k : A -> M S B) (s s' : S)
    (f : failure) :
  m s = (s', Fail f) -> bind m k s = (s', Fail f).
Proof. intros H. unfold bind. now rewrite H. Qed.

(** An element on which the body does nothing can be left out. *)
Lemma for_each_skip {A : Type} (body : A -> M S unit) (x : A) (l1 l2 : list A) :
  (forall s, body x s = (s, Ok tt)) ->
  forall s, for_each (l1 ++ x :: l2)%list body s = for_each (l1 ++ l2)%list body s.
Proof.
  intros Hx. induction l1 as [|y l1 IH]; intros s; simpl.
  - unfold bind. now rewrite Hx.
  - unfold bind. destruct (body y s) as [s' [[]|f]]; [apply IH | reflexivity].
Qed.

(** A failing body stops the loop: the elements after it are not run. *)
Lemma for_each_stop {A : Type} (body : A -> M S unit) (x : A) (l1 l2 : list A)
    (s s1 s2 : S) (f : failure) :
  for_each l1 body s = (s1, Ok tt) ->
  body x s1 = (s2, Fail f) ->
  for_each (l1 ++ x :: l2)%list body s = (s2, Fail f).
Proof.
  revert s. induction l1 as [|y l1 IH]; intros s; simpl.
  - unfold ret. intros H Hx. inversion H; subst. unfold bind. now rewrite Hx.
  - unfold bind. destruct (body y s) as [s' [[]|f']]; [apply IH | discriminate].
Qed.

End MonadFacts.

Section WriterFacts.
Import Str GenMakefiles.

(** When every round of a loop appends a text and goes on, the loop
    appends these texts in order. *)
Lemma for_each_writes {A : Type} (body : A -> M string unit)
    (w : A -> string) (l : list A) :
  (forall x, In x l -> forall text, body x text = (text ++ w x, Ok tt)) ->
  forall text, for_each l body text = (text ++ cat (map w l), Ok tt).
Proof.
  induction l as [|x l IH]; intros H text; simpl.
  - unfold ret. now rewrite append_nil_r.
  - unfold bind. rewrite (H x (or_introl eq_refl)).
    rewrite IH by (intros y Hy; apply H; now right).
    now rewrite append_assoc.
Qed.

Lemma fold_left_cat {A : Type} (w : A -> string) (l : list A) (acc : string) :
  fold_left (fun content x => content ++ w x) l acc = acc ++ cat (map w l).
Proof.
  revert acc. induction l as [|x l IH]; intros acc; simpl.
  - now rewrite append_nil_r.
  - now rewrite IH, append_assoc.
Qed.

End WriterFacts.

(** ** The shape of a run *)

Section RunFacts.
Import Str Pathlib GenMakefiles.

Lemma collect_rel_srcs (package : PurePath) (srcs acc : list PurePath) (fs : FS) :
  fold_m (collect_rel_src package) srcs acc fs
  = (fs, Ok (acc ++ rel_srcs_of package srcs)%list).
Proof.
  revert acc. induction srcs as [|src srcs IH]; intros acc; simpl.
  - unfold ret. now rewrite app_nil_r.
  - unfold bind at 1. unfold collect_rel_src, is_relative_to.
    destruct (relative_to src package) as [rel|f]; simpl.
    + unfold bind, lift, ret. rewrite IH, <- app_assoc. reflexivity.
    + unfold ret. rewrite IH. reflexivity.
Qed.

Lemma gen_makefile_run (package : PurePath) (symvers : list PurePath)
    (mk : PurePath) (fs : FS) :
  _gen_makefile package symvers mk fs
  = match OsPath.join (repeat ".." (List.length (parts package))) with
    | Ok rel_root =>
        (write_file fs mk
           (cat (map (symvers_lines rel_root) symvers) ++ makefile_stanza),
         Ok tt)
    | Fail f => (fs, Fail f)
    end.
Proof.
  unfold _gen_makefile, bind, lift.
  destruct (OsPath.join _) as [rel_root|f]; [|reflexivity].
  unfold makedirs, ret, with_open, write. simpl.
  now rewrite fold_left_cat.
Qed.

(** A run of [gen_ddk_makefile], step by step: the Makefile, the check
    of the output name, the Kbuild file, the top-level Kbuild file. *)
Lemma gen_ddk_makefile_run (om out : PurePath)
    (srcs incs symvers : list PurePath) (package : PurePath)
    (defs : list string) (copt_file : option (list copt)) (fs : FS) :
  gen_ddk_makefile om out srcs incs symvers package defs copt_file fs
  = match _gen_makefile package symvers (joinpath om (parse "Makefile")) fs with
    | (fs1, Fail f) => (fs1, Fail f)
    | (fs1, Ok _) =>
        if negb (String.eqb (suffix out) ".ko") then
          (fs1, Fail (SysExit 1 ("Invalid output: " ++ str out
                                   ++ "; must end with .ko")))
        else
          let kbuild := joinpath (joinpath om (parent out)) (parse "Kbuild") in
          let top_kbuild := joinpath om (parse "Kbuild") in
          match kbuild_body out (rel_srcs_of package srcs) incs package
                            defs copt_file "" with
          | (text, Fail f) => (write_file fs1 kbuild text, Fail f)
          | (text, Ok _) =>
              if negb (path_eqb top_kbuild kbuild) then
                with_open top_kbuild
                  (write (Textwrap.dedent
                     ("                # Build " ++ str (joinpath package out) ++ nl ++
                      "                obj-y += " ++ str (parent out) ++ "/" ++ nl ++
                      "                ")))
                  (write_file fs1 kbuild text)
              else (write_file fs1 kbuild text, Ok tt)
          end
    end.
Proof.
  unfold gen_ddk_makefile. unfold bind at 1.
  destruct (_gen_makefile _ _ _ fs) as [fs1 [[]|f]]; [|reflexivity].
  unfold bind at 1. rewrite collect_rel_srcs. simpl app.
  unfold bind at 1.
  destruct (negb (suffix out =? ".ko")); [reflexivity|].
  unfold ret at 1. unfold bind at 1. unfold makedirs at 1, ret at 1.
  unfold bind at 1. unfold with_open at 1.
  destruct (kbuild_body _ _ _ _ _ _ "") as [text [[]|f]]; [|reflexivity].
  destruct (negb (path_eqb _ _)); [|reflexivity].
  unfold bind, makedirs, ret. reflexivity.
Qed.

End RunFacts.

(** ** One-line values stay on one line *)

Section SingleLineFacts.
Import Str Pathlib.

Lemma single_line_join (sep : string) (l : list string) :
  single_line sep = true -> forallb single_line l = true ->
  single_line (join sep l) = true.
Proof.
  intros Hsep. induction l as [|x l IH]; intros H; [reflexivity|].
  cbn [forallb] in H. apply andb_true_iff in H as [Hx Hl].
  destruct l as [|y l]; [exact Hx|].
  change (join sep (x :: y :: l)) with (x ++ sep ++ join sep (y :: l)).
  rewrite !single_line_app, Hx, Hsep, (IH Hl). reflexivity.
Qed.

Lemma single_line_str (p : PurePath) :
  path_single_line p = true -> single_line (str p) = true.
Proof.
  destruct p as [a l]. unfold path_single_line, str. cbn [root names].
  intros H.
  assert (J : single_line (join "/" l) = true)
    by (apply single_line_join; [reflexivity | exact H]).
  destruct a, l; try reflexivity; rewrite single_line_app, J; reflexivity.
Qed.

Lemma single_line_replace_char (c : ascii) (new s : string) :
  single_line new = true -> single_line s = true ->
  single_line (replace_char c new s) = true.
Proof.
  intros Hn. unfold single_line.
  induction s as [|x s IH]; simpl; intros H; [reflexivity|].
  apply andb_true_iff in H as [Hx Hs].
  rewrite forallb_str_app, (IH Hs), andb_true_r.
  destruct (Ascii.eqb x c); [exact Hn | simpl; now rewrite Hx].
Qed.

Lemma single_line_quote (s : string) :
  single_line s = true -> single_line (Shlex.quote s) = true.
Proof.
  intros H. unfold Shlex.quote.
  destruct (String.eqb s ""); [reflexivity|].
  destruct (forallb_str Shlex.safe_char s); [exact H|].
  rewrite !single_line_app, single_line_replace_char by (reflexivity || exact H).
  reflexivity.
Qed.

Lemma single_line_take (n : nat) (s : string) :
  single_line s = true -> single_line (take n s) = true.
Proof.
  unfold single_line. revert n.
  induction s as [|c s IH]; intros [|n]; simpl; intros H; try reflexivity.
  apply andb_true_iff in H as [Hc Hs]. now rewrite Hc, (IH n Hs).
Qed.

Lemma forallb_last (l : list string) :
  forallb single_line l = true -> single_line (last l "") = true.
Proof.
  induction l as [|x l IH]; simpl; intros H; [reflexivity|].
  apply andb_true_iff in H as [Hx Hl].
  destruct l; [exact Hx | exact (IH Hl)].
Qed.

Lemma forallb_removelast (l : list string) :
  forallb single_line l = true -> forallb single_line (removelast l) = true.
Proof.
  induction l as [|x l IH]; simpl; intros H; [reflexivity|].
  apply andb_true_iff in H as [Hx Hl].
  destruct l; [reflexivity|]. simpl in *. now rewrite Hx, (IH Hl).
Qed.

Lemma forallb_skipn (n : nat) (l : list string) :
  forallb single_line l = true -> forallb single_line (skipn n l) = true.
Proof.
  revert l. induction n as [|n IH]; intros [|x l]; simpl; intros H;
    try reflexivity; try exact H.
  apply andb_true_iff in H as [_ Hl]. exact (IH l Hl).
Qed.

Lemma single_line_name (p : PurePath) :
  path_single_line p = true -> single_line (name p) = true.
Proof. apply forallb_last. Qed.

Lemma path_single_line_parent (p : PurePath) :
  path_single_line p = true -> path_single_line (parent p) = true.
Proof. apply forallb_removelast. Qed.

Lemma path_single_line_joinpath (p q : PurePath) :
  path_single_line p = true -> path_single_line q = true ->
  path_single_line (joinpath p q) = true.
Proof.
  unfold path_single_line, joinpath. intros Hp Hq.
  destruct (root q); simpl; try exact Hq.
  now rewrite forallb_app, Hp, Hq.
Qed.

Lemma path_single_line_relative_to (p q r : PurePath) :
  path_single_line p = true -> relative_to p q = Ok r ->
  path_single_line r = true.
Proof.
  unfold relative_to. intros Hp.
  destruct (_ && _); [|discriminate].
  intros H. inversion H; subst. now apply forallb_skipn.
Qed.

Lemma path_single_line_with_suffix (p q : PurePath) (sfx : string) :
  path_single_line p = true -> single_line sfx = true ->
  with_suffix p sfx = Ok q -> path_single_line q = true.
Proof.
  unfold with_suffix. intros Hp Hs.
  destruct (contains sfx "/"); [discriminate|].
  destruct (_ || _); [discriminate|].
  destruct (String.eqb (name p) ""); [discriminate|].
  intros H. inversion H; subst. unfold path_single_line. simpl.
  rewrite forallb_app, forallb_removelast by exact Hp. simpl.
  rewrite andb_true_r.
  destruct (String.eqb (suffix p) "");
    rewrite single_line_app, Hs, andb_true_r;
    [| apply single_line_take]; now apply single_line_name.
Qed.

Lemma path_single_line_dotdots (n : nat) :
  path_single_line (Path (repeat ".." n)) = true.
Proof.
  rewrite Path_dotdots. unfold path_single_line. simpl.
  induction n as [|n IH]; simpl; [reflexivity | exact IH].
Qed.

End SingleLineFacts.

(** ** The texts that the generator writes *)

(** Closes a goal [dedent template = text] with an instance [L] of
    [dedent_one] or [dedent_two], up to the bracketing of [++]. *)
Ltac by_template L :=
  match type of L with
  | Textwrap.dedent ?X = _ =>
      transitivity (Textwrap.dedent X);
      [ f_equal; rewrite ?append_assoc; reflexivity
      | rewrite L; rewrite ?append_assoc; reflexivity ]
  end.

Section TemplateFacts.
Import Str Pathlib GenMakefiles.

Lemma symvers_lines_text (rel_root : string) (sv : PurePath) :
  single_line rel_root = true -> path_single_line sv = true ->
  symvers_lines rel_root sv
  = "# Include symbol: " ++ str sv ++ nl ++
    "EXTRA_SYMBOLS += $(OUT_DIR)/$(M)/" ++ rel_root ++ "/" ++ str sv ++ nl.
Proof.
  intros Hr Hs. apply single_line_str in Hs. unfold symvers_lines.
  by_template
    (dedent_two "            " "            "
       ("# Include symbol: " ++ str sv)
       ("EXTRA_SYMBOLS += $(OUT_DIR)/$(M)/" ++ rel_root ++ "/" ++ str sv)
       eq_refl eq_refl eq_refl
       ltac:(rewrite single_line_app, Hs; reflexivity)
       eq_refl
       ltac:(rewrite !single_line_app, Hr, Hs; reflexivity)).
Qed.

Lemma makefile_stanza_text :
  makefile_stanza
  = "modules modules_install clean:" ++ nl ++
    tab ++ "$(MAKE) -C $(KERNEL_SRC) M=$(M) $(KBUILD_OPTIONS) KBUILD_EXTRA_SYMBOLS="
        ++ dq ++ "$(EXTRA_SYMBOLS)" ++ dq ++ " $(@)" ++ nl.
Proof. vm_compute. reflexivity. Qed.

Lemma write_ccflag_text (ccflag text : string) :
  single_line ccflag = true ->
  _write_ccflag ccflag text
  = (text ++ "ccflags-y += " ++ Shlex.quote ccflag ++ nl, Ok tt).
Proof.
  intros H. apply single_line_quote in H. unfold _write_ccflag, write.
  do 2 f_equal.
  by_template
    (dedent_one "        " "        " ("ccflags-y += " ++ Shlex.quote ccflag)
       eq_refl eq_refl eq_refl
       ltac:(rewrite single_line_app, H; reflexivity)).
Qed.

Lemma kbuild_include_text (rel_root inc : PurePath) (text : string) :
  path_single_line rel_root = true -> path_single_line inc = true ->
  kbuild_include rel_root inc text
  = (text ++ ("# Include " ++ str inc ++ nl ++
              "ccflags-y += "
                ++ Shlex.quote ("-I$(srctree)/$(src)/" ++ str rel_root ++ "/"
                                  ++ str inc) ++ nl),
     Ok tt).
Proof.
  intros Hr Hi. apply single_line_str in Hr, Hi.
  unfold kbuild_include, bind. unfold write at 1.
  rewrite write_ccflag_text by (rewrite !single_line_app, Hr, Hi; reflexivity).
  match goal with
  | |- context [Textwrap.dedent ?X] =>
      assert (E : Textwrap.dedent X = "# Include " ++ str inc ++ nl)
  end.
  { by_template
      (dedent_one "                " "                " ("# Include " ++ str inc)
         eq_refl eq_refl eq_refl
         ltac:(rewrite single_line_app, Hi; reflexivity)). }
  rewrite E, !append_assoc. reflexivity.
Qed.

End TemplateFacts.

(** ** The relative roots (lines 49 and 134-135) *)

Section RelativeRoot.
Import Str Pathlib GenMakefiles.

Lemma length_app (a b : string) :
  String.length (a ++ b) = String.length a + String.length b.
Proof. induction a as [|c a IH]; simpl; [reflexivity | now rewrite IH]. Qed.

Lemma drop_app_plus (n : nat) (a b : string) :
  drop (String.length a + n) (a ++ b) = drop n b.
Proof. induction a as [|c a IH]; simpl; [reflexivity | exact IH]. Qed.

Lemma endswith_dotdot (x : string) : endswith (x ++ "..") "/" = false.
Proof.
  unfold endswith. rewrite length_app. simpl String.length.
  replace (String.length x + 2 - 1) with (String.length x + 1) by lia.
  rewrite drop_app_plus. simpl. apply andb_false_r.
Qed.

Lemma join_step_dotdot (x : string) :
  OsPath.join_step (x ++ "..") ".." = (x ++ "../") ++ "..".
Proof.
  unfold OsPath.join_step. simpl startswith. cbv iota.
  rewrite endswith_dotdot, orb_false_r.
  destruct x; simpl; now rewrite ?append_assoc.
Qed.

Lemma fold_join_dotdots (d : nat) (x : string) :
  fold_left OsPath.join_step (repeat ".." d) (x ++ "..")
  = (x ++ "..") ++ cat (repeat "/.." d).
Proof.
  revert x. induction d as [|d IH]; intros x; simpl.
  - now rewrite append_nil_r.
  - rewrite join_step_dotdot, IH. now rewrite !append_assoc.
Qed.

Lemma join_dotdots (d : nat) :
  join "/" (repeat ".." (S d)) = ".." ++ cat (repeat "/.." d).
Proof.
  induction d as [|d IH]; [reflexivity|].
  change (repeat ".." (S (S d))) with (".." :: repeat ".." (S d)).
  change (join "/" (".." :: repeat ".." (S d)))
    with ("../" ++ join "/" (repeat ".." (S d))).
  rewrite IH. reflexivity.
Qed.

(** The Makefile emitter: at least one segment gives as many double
    dots, joined by slashes. *)
Lemma makefile_rel_root_segments (d : nat) :
  OsPath.join (repeat ".." (S d)) = Ok (join "/" (repeat ".." (S d))).
Proof.
  rewrite join_dotdots. unfold OsPath.join. cbn [repeat]. f_equal.
  exact (fold_join_dotdots d "").
Qed.

(** The Kbuild emitter: one double dot for each part of the package
    joined with the directory of the module, for every depth. *)
Lemma kbuild_rel_root_segments (package out : PurePath) :
  kbuild_rel_root package out
  = mkPath Relative
      (repeat ".." (List.length (parts (joinpath package (parent out))))).
Proof. unfold kbuild_rel_root. apply Path_dotdots. Qed.

Lemma single_line_dotdots (n : nat) :
  single_line (join "/" (repeat ".." n)) = true.
Proof.
  apply single_line_join; [reflexivity|].
  induction n as [|n IH]; simpl; [reflexivity | exact IH].
Qed.

(** C1, at its failing input.  For a package without any segment the
    Makefile emitter does not compute an empty relative root: the call
    of [os.path.join] without argument raises [TypeError], nothing is
    written, and the whole generator stops there; the Kbuild emitter's
    own computation gives the empty path at depth zero. *)
Theorem C1_zero_segment_package_raises :
  forall (om out mk : PurePath) (srcs incs symvers : list PurePath)
         (defs : list string) (copt_file : option (list copt)) (fs : FS),
    parts (parse "") = []
    /\ run (_gen_makefile (parse "") symvers mk) fs
       = (fs, Some (Uncaught TypeError))
    /\ run (gen_ddk_makefile om out srcs incs symvers (parse "") defs copt_file)
           fs
       = (fs, Some (Uncaught TypeError))
    /\ kbuild_rel_root (parse "") (parse "mod.ko") = mkPath Relative [].
Proof.
  intros. split; [reflexivity|]. split; [reflexivity|].
  split; [|reflexivity].
  unfold run. rewrite gen_ddk_makefile_run. reflexivity.
Qed.

End RelativeRoot.

(** ** The Makefile (lines 42-66) *)

Section Makefile.
Import Str Pathlib GenMakefiles.

Lemma write_file_same (fs : FS) (p : PurePath) (content : string) :
  write_file fs p content p = Some content.
Proof. unfold write_file. now rewrite path_eqb_refl. Qed.

Lemma write_file_other (fs : FS) (p q : PurePath) (content : string) :
  q <> p -> write_file fs p content q = fs q.
Proof.
  intros H. unfold write_file. apply path_eqb_neq in H. now rewrite H.
Qed.

Lemma parts_nonempty_length (p : PurePath) :
  parts p <> [] -> exists d, List.length (parts p) = S d.
Proof.
  destruct (parts p) as [|x l]; [congruence | intros _; now exists (List.length l)].
Qed.

(** C7.  For a package of at least one segment, and dependency paths
    without line breaks, the Makefile is, for each dependency in order,
    a comment and one line that appends
    [$(OUT_DIR)/$(M)/], the relative root, a slash and the dependency
    path to [EXTRA_SYMBOLS], followed in every case, also without
    dependencies, by the stanza that forwards [modules],
    [modules_install] and [clean] to the kernel build. *)
Theorem C7_makefile_contents :
  forall (package : PurePath) (symvers : list PurePath) (mk : PurePath)
         (fs : FS),
    parts package <> [] ->
    forallb path_single_line symvers = true ->
    run (_gen_makefile package symvers mk) fs
    = (write_file fs mk
         (cat (map (fun sv =>
                      "# Include symbol: " ++ str sv ++ nl ++
                      "EXTRA_SYMBOLS += $(OUT_DIR)/$(M)/"
                        ++ join "/" (repeat ".." (List.length (parts package)))
                        ++ "/" ++ str sv ++ nl)
                   symvers)
          ++ "modules modules_install clean:" ++ nl ++
             tab ++ "$(MAKE) -C $(KERNEL_SRC) M=$(M) $(KBUILD_OPTIONS) KBUILD_EXTRA_SYMBOLS="
                 ++ dq ++ "$(EXTRA_SYMBOLS)" ++ dq ++ " $(@)" ++ nl),
       None).
Proof.
  intros package symvers mk fs Hp Hs.
  destruct (parts_nonempty_length _ Hp) as [d Hd].
  unfold run. rewrite gen_makefile_run, Hd, makefile_rel_root_segments.
  cbn [failure_of]. rewrite makefile_stanza_text. do 4 f_equal.
  apply map_ext_in. intros sv Hin.
  apply symvers_lines_text; [apply single_line_dotdots|].
  rewrite forallb_forall in Hs. now apply Hs.
Qed.

End Makefile.

(** ** The check of the module output name (lines 85-100) *)

Section OutputCheck.
Import Str Pathlib GenMakefiles.

(** C9.  When the module output does not end in [.ko], a run for a
    package of at least one segment ends in [sys.exit(1)] with the
    message of line 97; the Makefile written before the check stays in
    the output tree, and no other file, so no Kbuild file, has been
    written. *)
Theorem C9_invalid_output_keeps_makefile :
  forall (om out : PurePath) (srcs incs symvers : list PurePath)
         (package : PurePath) (defs : list string)
         (copt_file : option (list copt)) (fs : FS),
    String.eqb (suffix out) ".ko" = false ->
    parts package <> [] ->
    exists (fs' : FS) (content : string),
      run (gen_ddk_makefile om out srcs incs symvers package defs copt_file) fs
      = (fs', Some (SysExit 1 ("Invalid output: " ++ str out
                                 ++ "; must end with .ko")))
      /\ exit_status (Some (SysExit 1 ("Invalid output: " ++ str out
                                         ++ "; must end with .ko"))) <> 0
      /\ fs' (joinpath om (parse "Makefile")) = Some content
      /\ forall p, p <> joinpath om (parse "Makefile") -> fs' p = fs p.
Proof.
  intros om out srcs incs symvers package defs copt_file fs Hko Hp.
  destruct (parts_nonempty_length _ Hp) as [d Hd].
  unfold run.
  rewrite gen_ddk_makefile_run, gen_makefile_run, Hd,
    makefile_rel_root_segments, Hko.
  cbn [negb failure_of].
  eexists. eexists. split; [reflexivity|].
  split; [discriminate|].
  split; [apply write_file_same|].
  intros p Hneq. now apply write_file_other.
Qed.

End OutputCheck.

(** ** Suffixes *)

Section SuffixFacts.
Import Str Pathlib.

Lemma rfind_drop (c : ascii) (s : string) (i : nat) :
  rfind c s = Some i -> exists r, drop i s = String c r.
Proof.
  revert i. induction s as [|a s IH]; intros i; simpl; [discriminate|].
  destruct (rfind c s) as [j|].
  - intros H. inversion H; subst. simpl. now apply IH.
  - destruct (Ascii.eqb_spec a c) as [->|_]; [|discriminate].
    intros H. inversion H; subst. simpl. now exists s.
Qed.

Lemma length_drop (i : nat) (s : string) :
  String.length (drop i s) = String.length s - i.
Proof.
  revert s. induction i as [|i IH]; intros [|a s]; simpl; try reflexivity.
  apply IH.
Qed.

Lemma take_drop (n : nat) (s : string) : take n s ++ drop n s = s.
Proof.
  revert s. induction n as [|n IH]; intros [|a s]; simpl; try reflexivity.
  now rewrite IH.
Qed.

Lemma take_all (s : string) : take (String.length s) s = s.
Proof. induction s as [|a s IH]; simpl; [reflexivity | now rewrite IH]. Qed.

(** A suffix is empty, or a dot followed by at least one character. *)
Lemma suffix_shape (p : PurePath) :
  suffix p = "" \/ exists c r, suffix p = String "."%char (String c r).
Proof.
  unfold suffix. destruct (rfind "."%char (name p)) as [i|] eqn:Hr; [|now left].
  destruct (Nat.ltb 0 i && Nat.ltb i (String.length (name p) - 1)) eqn:Hi;
    [|now left].
  right. apply andb_true_iff in Hi as [_ Hi]. apply Nat.ltb_lt in Hi.
  destruct (rfind_drop _ _ _ Hr) as [r Hd].
  assert (Hl : String.length (drop i (name p)) = String.length (name p) - i)
    by apply length_drop.
  rewrite Hd in *. destruct r as [|c r]; [simpl in Hl; lia|].
  now exists c, r.
Qed.

Lemma suffix_same_name (p q : PurePath) : name p = name q -> suffix p = suffix q.
Proof. unfold suffix. now intros ->. Qed.

Lemma suffix_empty_name (p : PurePath) : name p = "" -> suffix p = "".
Proof. unfold suffix. now intros ->. Qed.

(** The name is its stem followed by its suffix. *)
Lemma name_stem_suffix (p : PurePath) :
  name p
  = take (String.length (name p) - String.length (suffix p)) (name p)
    ++ suffix p.
Proof.
  unfold suffix. destruct (rfind "."%char (name p)) as [i|] eqn:Hr.
  - destruct (Nat.ltb 0 i && Nat.ltb i (String.length (name p) - 1)) eqn:Hi.
    + apply andb_true_iff in Hi as [_ Hi]. apply Nat.ltb_lt in Hi.
      rewrite length_drop.
      replace (String.length (name p) - (String.length (name p) - i)) with i
        by lia.
      now rewrite take_drop.
    + cbn [String.length]. now rewrite Nat.sub_0_r, take_all, append_nil_r.
  - cbn [String.length]. now rewrite Nat.sub_0_r, take_all, append_nil_r.
Qed.

Lemma lower_nonempty (c : ascii) (r : string) :
  lower (String "."%char (String c r))
  = String "."%char (String (lower_char c) (lower r)).
Proof. reflexivity. Qed.

(** The test [x in ".h"] of line 111 is a substring test: it holds for
    the four substrings of [".h"]. *)
Lemma contains_dot_h (x : string) :
  contains ".h" x = true <-> x = "" \/ x = "." \/ x = "h" \/ x = ".h".
Proof.
  split.
  - destruct x as [|a [|b [|c x]]]; simpl.
    + now left.
    + rewrite !andb_true_r, orb_false_r.
      intros H. apply orb_true_iff in H as [H|H];
        apply Ascii.eqb_eq in H; subst a; auto.
    + rewrite !andb_false_r, !orb_false_r, andb_true_r.
      intros H. apply andb_true_iff in H as [Ha Hb].
      apply Ascii.eqb_eq in Ha, Hb. subst a b. auto.
    + rewrite !andb_false_r. discriminate.
  - intros [->|[->|[->| ->]]]; reflexivity.
Qed.

(** On a suffix the test holds for the empty suffix and for [.h]. *)
Lemma header_test_on_suffix (p : PurePath) :
  contains ".h" (lower (suffix p)) = true
  <-> suffix p = "" \/ lower (suffix p) = ".h".
Proof.
  rewrite contains_dot_h.
  destruct (suffix_shape p) as [->|[c [r ->]]]; simpl.
  - split; auto.
  - split; [intros [H|[H|[H|H]]]; try discriminate H; auto|].
    intros [H|H]; [discriminate | auto].
Qed.

End SuffixFacts.

(** ** The loop over the sources (lines 109-128) *)

Section SourceLoop.
Import Str Pathlib GenMakefiles.

Lemma kbuild_src_skip (package out src : PurePath) :
  contains ".h" (lower (suffix src)) = true ->
  forall text, kbuild_src package out src text = (text, Ok tt).
Proof. intros H text. unfold kbuild_src. now rewrite H. Qed.

Lemma kbuild_src_invalid (package out src : PurePath) (text : string) :
  contains ".h" (lower (suffix src)) = false ->
  existsb (String.eqb (lower (suffix src))) _SOURCE_SUFFIXES = false ->
  kbuild_src package out src text
  = (text, Fail (SysExit 1 ("Invalid source " ++ str src))).
Proof. intros H1 H2. unfold kbuild_src. now rewrite H1, H2. Qed.

Lemma compilable_suffix (src : PurePath) :
  existsb (String.eqb (lower (suffix src))) _SOURCE_SUFFIXES = true ->
  lower (suffix src) = ".c" \/ lower (suffix src) = ".rs"
  \/ lower (suffix src) = ".s".
Proof.
  unfold _SOURCE_SUFFIXES. cbn [existsb]. rewrite orb_false_r.
  intros H. apply orb_true_iff in H as [H|H]; [|apply orb_true_iff in H as [H|H]];
    apply String.eqb_eq in H; auto.
Qed.

Lemma compilable_not_header (src : PurePath) :
  existsb (String.eqb (lower (suffix src))) _SOURCE_SUFFIXES = true ->
  contains ".h" (lower (suffix src)) = false.
Proof.
  intros H. destruct (compilable_suffix _ H) as [-> |[-> | ->]]; reflexivity.
Qed.

(** A source with a suffix that is neither [.h] nor one of
    [_SOURCE_SUFFIXES], and not empty, stops the generator. *)
Lemma kbuild_src_unknown_suffix (package out src : PurePath) (text : string) :
  suffix src <> "" ->
  lower (suffix src) <> ".h" ->
  existsb (String.eqb (lower (suffix src))) _SOURCE_SUFFIXES = false ->
  kbuild_src package out src text
  = (text, Fail (SysExit 1 ("Invalid source " ++ str src))).
Proof.
  intros Hne Hh Hs. apply kbuild_src_invalid; [|exact Hs].
  destruct (contains ".h" (lower (suffix src))) eqn:E; [|reflexivity].
  apply header_test_on_suffix in E as [E|E]; contradiction.
Qed.

Lemma last_skipn (n : nat) (l : list string) (d : string) :
  skipn n l <> [] -> last (skipn n l) d = last l d.
Proof.
  revert l. induction n as [|n IH]; intros [|x l]; simpl; try reflexivity.
  intros H. rewrite (IH l H). destruct l as [|y l]; [|reflexivity].
  now destruct n.
Qed.

(** Making a path relative keeps its suffix, or leaves no name at all. *)
Lemma relative_suffix (src package rel : PurePath) :
  relative_to src package = Ok rel ->
  suffix rel = suffix src \/ suffix rel = "".
Proof.
  unfold relative_to. destruct (_ && _); [|discriminate].
  intros H. inversion H; subst. clear H.
  destruct (skipn (List.length (names package)) (names src)) as [|x l] eqn:E.
  - right. reflexivity.
  - left. apply suffix_same_name. unfold name. cbn [names].
    rewrite <- E. apply last_skipn. rewrite E. discriminate.
Qed.

Lemma kbuild_body_skip (out rel : PurePath) (rs1 rs2 incs : list PurePath)
    (package : PurePath) (defs : list string) (copt_file : option (list copt)) :
  (forall text, kbuild_src package out rel text = (text, Ok tt)) ->
  forall text,
    kbuild_body out (rs1 ++ rel :: rs2)%list incs package defs copt_file text
    = kbuild_body out (rs1 ++ rs2)%list incs package defs copt_file text.
Proof.
  intros H text. unfold kbuild_body, bind, lift, write.
  destruct (with_suffix out ".o"); [|reflexivity].
  now rewrite (for_each_skip _ _ _ _ H).
Qed.

(** A declared source on which the loop body does nothing can be
    taken out of the list of sources: the run is the same. *)
Lemma gen_ddk_makefile_skip (om out src : PurePath)
    (l1 l2 incs symvers : list PurePath) (package : PurePath)
    (defs : list string) (copt_file : option (list copt)) :
  (forall rel, relative_to src package = Ok rel ->
               contains ".h" (lower (suffix rel)) = true) ->
  forall fs,
    gen_ddk_makefile om out (l1 ++ src :: l2)%list incs symvers package defs
                     copt_file fs
    = gen_ddk_makefile om out (l1 ++ l2)%list incs symvers package defs
                       copt_file fs.
Proof.
  intros H fs. rewrite !gen_ddk_makefile_run.
  unfold rel_srcs_of. rewrite !flat_map_app. cbn [flat_map].
  destruct (relative_to src package) as [rel|f] eqn:E; [|reflexivity].
  cbn [app]. rewrite kbuild_body_skip; [reflexivity|].
  apply kbuild_src_skip. now apply H.
Qed.

(** C5.  A declared source whose lowercased suffix is [.h] is skipped:
    when the loop meets it nothing is written and nothing fails, and
    the run, every written file and the exit status, is the run without
    that source. *)
Theorem C5_header_source_skipped :
  forall (om out src : PurePath) (l1 l2 incs symvers : list PurePath)
         (package : PurePath) (defs : list string)
         (copt_file : option (list copt)),
    lower (suffix src) = ".h" ->
    (forall text, kbuild_src package out src text = (text, Ok tt))
    /\ forall fs,
         run (gen_ddk_makefile om out (l1 ++ src :: l2)%list incs symvers
                               package defs copt_file) fs
         = run (gen_ddk_makefile om out (l1 ++ l2)%list incs symvers package
                                 defs copt_file) fs.
Proof.
  intros om out src l1 l2 incs symvers package defs copt_file Hh. split.
  - apply kbuild_src_skip. now rewrite Hh.
  - intros fs. unfold run. rewrite gen_ddk_makefile_skip; [reflexivity|].
    intros rel Hrel. apply header_test_on_suffix.
    destruct (relative_suffix _ _ _ Hrel) as [-> | ->]; auto.
Qed.

(** C10.  A declared source under the package that has no suffix is
    skipped in the same way: its relative path has no suffix either,
    the empty string is a substring of [.h], so the test of line 111
    holds and the loop goes on without writing or failing. *)
Theorem C10_suffixless_source_skipped :
  forall (om out src : PurePath) (l1 l2 incs symvers : list PurePath)
         (package : PurePath) (defs : list string)
         (copt_file : option (list copt)),
    is_relative_to src package = true ->
    suffix src = "" ->
    (exists rel,
        relative_to src package = Ok rel
        /\ suffix rel = ""
        /\ contains ".h" (lower (suffix rel)) = true
        /\ forall text, kbuild_src package out rel text = (text, Ok tt))
    /\ forall fs,
         run (gen_ddk_makefile om out (l1 ++ src :: l2)%list incs symvers
                               package defs copt_file) fs
         = run (gen_ddk_makefile om out (l1 ++ l2)%list incs symvers package
                                 defs copt_file) fs.
Proof.
  intros om out src l1 l2 incs symvers package defs copt_file Hrel Hs.
  assert (Hsk : forall rel, relative_to src package = Ok rel -> suffix rel = "").
  { intros rel E. destruct (relative_suffix _ _ _ E) as [H|H]; congruence. }
  split.
  - destruct (is_relative_to_true _ _ Hrel) as [E _].
    eexists. split; [exact E|].
    pose proof (Hsk _ E) as Hr. split; [exact Hr|].
    split; [now rewrite Hr|]. apply kbuild_src_skip. now rewrite Hr.
  - intros fs. unfold run. rewrite gen_ddk_makefile_skip; [reflexivity|].
    intros rel E. now rewrite (Hsk _ E).
Qed.

End SourceLoop.

(** ** Every way of stopping is fatal *)

Create HintDb fatal.

Section Fatal.
Import Str Pathlib GenMakefiles.
Context {S : Type}.

Lemma fatal_ret {A : Type} (a : A) : fatal_only (ret (S := S) a).
Proof. intros s s' f H. discriminate H. Qed.

Lemma fatal_die {A : Type} (msg : string) : fatal_only (die (S := S) (A := A) msg).
Proof. intros s s' f H. inversion H. discriminate. Qed.

Lemma fatal_lift_uncaught {A : Type} (r : result A) :
  (forall f, r = Fail f -> exists e, f = Uncaught e) ->
  fatal_only (lift (S := S) r).
Proof.
  intros Hr s s' f H. inversion H; subst.
  destruct (Hr f eq_refl) as [e ->]. discriminate.
Qed.

Lemma fatal_bind {A B : Type} (m : M S A) (k : A -> M S B) :
  fatal_only m -> (forall a, fatal_only (k a)) -> fatal_only (bind m k).
Proof.
  intros Hm Hk s s' f. unfold bind.
  destruct (m s) as [s1 [a|f1]] eqn:E.
  - apply Hk.
  - intros H. inversion H; subst. exact (Hm _ _ _ E).
Qed.

Lemma fatal_for_each {A : Type} (l : list A) (body : A -> M S unit) :
  (forall x, fatal_only (body x)) -> fatal_only (for_each l body).
Proof.
  intros Hb. induction l as [|x l IH]; cbn [for_each].
  - apply fatal_ret.
  - apply fatal_bind; [apply Hb | intros _; exact IH].
Qed.

Lemma fatal_fold_m {A B : Type} (body : B -> A -> M S B) (l : list A) (acc : B) :
  (forall b x, fatal_only (body b x)) -> fatal_only (fold_m body l acc).
Proof.
  intros Hb. revert acc. induction l as [|x l IH]; intros acc; cbn [fold_m].
  - apply fatal_ret.
  - apply fatal_bind; [apply Hb | intros b; apply IH].
Qed.

(** A loop stops when its body stops on one of the elements. *)
Lemma for_each_fails {A : Type} (body : A -> M S unit) (x : A) (l : list A) :
  In x l ->
  (forall s, exists s' f, body x s = (s', Fail f)) ->
  forall s, exists s' f, for_each l body s = (s', Fail f).
Proof.
  intros Hin Hx. induction l as [|y l IH]; [contradiction|].
  intros s. cbn [for_each]. unfold bind.
  destruct (body y s) as [s1 [[]|f1]] eqn:E; [|now exists s1, f1].
  destruct Hin as [->|Hin]; [|now apply IH].
  destruct (Hx s) as (s' & f & Hf). congruence.
Qed.

End Fatal.

#[export] Hint Resolve fatal_ret fatal_die fatal_bind fatal_for_each
  fatal_fold_m : fatal.

Section FatalGenerator.
Import Str Pathlib GenMakefiles.

Lemma with_suffix_uncaught (p : PurePath) (sfx : string) (f : failure) :
  with_suffix p sfx = Fail f -> exists e, f = Uncaught e.
Proof.
  unfold with_suffix.
  repeat match goal with
         | |- context [if ?c then _ else _] => destruct c
         end;
    intros H; inversion H; eauto.
Qed.

Lemma relative_to_uncaught (p q : PurePath) (f : failure) :
  relative_to p q = Fail f -> exists e, f = Uncaught e.
Proof.
  unfold relative_to. destruct (_ && _); intros H; inversion H; eauto.
Qed.

Lemma os_path_join_uncaught (args : list string) (f : failure) :
  OsPath.join args = Fail f -> exists e, f = Uncaught e.
Proof. destruct args; intros H; inversion H; eauto. Qed.

Lemma fatal_write (s : string) : fatal_only (write s).
Proof. intros t t' f H. discriminate H. Qed.

Lemma fatal_with_open (p : PurePath) (body : M string unit) :
  fatal_only body -> fatal_only (with_open p body).
Proof.
  intros Hb fs fs' f. unfold with_open.
  destruct (body "") as [text r] eqn:E.
  intros H. inversion H; subst. exact (Hb _ _ _ E).
Qed.

Lemma fatal_makedirs (p : PurePath) : fatal_only (makedirs p).
Proof. apply fatal_ret. Qed.

Lemma fatal_write_ccflag (ccflag : string) : fatal_only (_write_ccflag ccflag).
Proof. apply fatal_write. Qed.

Hint Resolve fatal_write fatal_with_open fatal_makedirs fatal_write_ccflag
  : fatal.

Hint Extern 1 (fatal_only (lift (with_suffix _ _))) =>
  apply fatal_lift_uncaught; apply with_suffix_uncaught : fatal.
Hint Extern 1 (fatal_only (lift (relative_to _ _))) =>
  apply fatal_lift_uncaught; apply relative_to_uncaught : fatal.
Hint Extern 1 (fatal_only (lift (OsPath.join _))) =>
  apply fatal_lift_uncaught; apply os_path_join_uncaught : fatal.

Lemma fatal_kbuild_src (package out src : PurePath) :
  fatal_only (kbuild_src package out src).
Proof.
  unfold kbuild_src.
  repeat match goal with
         | |- fatal_only (if ?c then _ else _) => destruct c
         | |- fatal_only (bind _ _) => apply fatal_bind; [|intros ?]
         end; auto with fatal.
Qed.

Lemma fatal_kbuild_include (rel_root inc : PurePath) :
  fatal_only (kbuild_include rel_root inc).
Proof. unfold kbuild_include. auto with fatal. Qed.

Lemma fatal_handle_copt_file (copt_file : option (list copt))
    (rel_root : PurePath) :
  fatal_only (_handle_copt_file copt_file rel_root).
Proof.
  unfold _handle_copt_file. destruct copt_file; auto 8 with fatal.
Qed.

Hint Resolve fatal_kbuild_src fatal_kbuild_include fatal_handle_copt_file
  : fatal.

Lemma fatal_kbuild_body (out : PurePath) (rel_srcs incs : list PurePath)
    (package : PurePath) (defs : list string) (copt_file : option (list copt)) :
  fatal_only (kbuild_body out rel_srcs incs package defs copt_file).
Proof.
  unfold kbuild_body.
  repeat (apply fatal_bind; [|intros ?]); auto with fatal.
  destruct defs; auto with fatal.
Qed.

Lemma fatal_gen_makefile (package : PurePath) (symvers : list PurePath)
    (mk : PurePath) :
  fatal_only (_gen_makefile package symvers mk).
Proof.
  unfold _gen_makefile.
  repeat (apply fatal_bind; [|intros ?]); auto with fatal.
Qed.

(** Whatever stops the generator, the exit status is not zero. *)
Lemma fatal_gen_ddk_makefile (om out : PurePath)
    (srcs incs symvers : list PurePath) (package : PurePath)
    (defs : list string) (copt_file : option (list copt)) :
  fatal_only (gen_ddk_makefile om out srcs incs symvers package defs copt_file).
Proof.
  unfold gen_ddk_makefile.
  repeat match goal with
         | |- fatal_only (if ?c then _ else _) => destruct c
         | |- fatal_only (bind _ _) => apply fatal_bind; [|intros ?]
         end;
    auto using fatal_gen_makefile, fatal_kbuild_body with fatal.
  - apply fatal_fold_m. intros b x. unfold collect_rel_src.
    destruct (is_relative_to x package); auto with fatal.
Qed.

(** A source on which the loop body stops, whatever was written
    before, stops the run with a non-zero exit status. *)
Lemma run_stops_on_source (om out rel : PurePath)
    (srcs incs symvers : list PurePath) (package : PurePath)
    (defs : list string) (copt_file : option (list copt)) (fs : FS) :
  In rel (rel_srcs_of package srcs) ->
  (forall text, exists f, kbuild_src package out rel text = (text, Fail f)) ->
  exists fs' f,
    run (gen_ddk_makefile om out srcs incs symvers package defs copt_file) fs
    = (fs', Some f)
    /\ exit_status (Some f) <> 0.
Proof.
  intros Hin Hrel.
  assert (Hfail : exists fs' f,
             gen_ddk_makefile om out srcs incs symvers package defs copt_file fs
             = (fs', Fail f)).
  { rewrite gen_ddk_makefile_run.
    destruct (_gen_makefile _ _ _ fs) as [fs1 [[]|f]]; [|now eauto].
    destruct (negb _); [now eauto|]. cbv zeta.
    assert (Hk : exists text f,
               kbuild_body out (rel_srcs_of package srcs) incs package defs
                           copt_file "" = (text, Fail f)).
    { unfold kbuild_body. unfold bind at 1, lift at 1.
      destruct (with_suffix out ".o") as [obj|f]; [|now eauto].
      unfold bind at 1, write at 1. unfold bind at 1, write at 1.
      unfold bind at 1.
      match goal with
      | |- context [for_each ?l ?b ?t] =>
          destruct (for_each_fails b rel l Hin
                      (fun s => match Hrel s with
                                | ex_intro _ f H =>
                                    ex_intro _ s (ex_intro _ f H)
                                end) t) as (t' & f & Hf)
      end.
      rewrite Hf. now eauto. }
    destruct Hk as (text & f & Hk). rewrite Hk. now eauto. }
  destruct Hfail as (fs' & f & Hfail).
  exists fs', f. unfold run. rewrite Hfail. split; [reflexivity|].
  exact (fatal_gen_ddk_makefile _ _ _ _ _ _ _ _ _ _ _ Hfail).
Qed.

(** A declared source under the package whose suffix is not empty,
    not [.h] and not one of [_SOURCE_SUFFIXES] stops the run. *)
Lemma run_stops_on_unknown_suffix (om out rel : PurePath)
    (srcs incs symvers : list PurePath) (package : PurePath)
    (defs : list string) (copt_file : option (list copt)) (fs : FS) :
  In rel (rel_srcs_of package srcs) ->
  suffix rel <> "" ->
  lower (suffix rel) <> ".h" ->
  existsb (String.eqb (lower (suffix rel))) _SOURCE_SUFFIXES = false ->
  exists fs' f,
    run (gen_ddk_makefile om out srcs incs symvers package defs copt_file) fs
    = (fs', Some f)
    /\ exit_status (Some f) <> 0.
Proof.
  intros Hin H1 H2 H3. apply run_stops_on_source with (rel := rel); [exact Hin|].
  intros text. eexists. now apply kbuild_src_unknown_suffix.
Qed.

End FatalGenerator.

(** ** Replacing the suffix *)

Section WithSuffixFacts.
Import Str Pathlib.

Lemma suffix_nonempty_name (p : PurePath) : suffix p <> "" -> name p <> "".
Proof. intros H E. apply H. now apply suffix_empty_name. Qed.

(** With a well-formed new suffix and a path that has a name,
    [with_suffix] returns the path whose last name is the stem followed
    by the new suffix. *)
Lemma with_suffix_ok (p : PurePath) (sfx : string) :
  contains sfx "/" = false ->
  (negb (String.eqb sfx "") && negb (startswith sfx ".")) || String.eqb sfx "."
  = false ->
  name p <> "" ->
  with_suffix p sfx
  = Ok (mkPath (root p) (removelast (names p) ++ [(stem p ++ sfx)%string])%list).
Proof.
  intros H1 H2 Hn. unfold with_suffix. rewrite H1, H2.
  apply String.eqb_neq in Hn. rewrite Hn. do 4 f_equal. unfold stem.
  destruct (String.eqb_spec (suffix p) "") as [E|_]; [|reflexivity].
  rewrite E. cbn [String.length]. now rewrite Nat.sub_0_r, take_all.
Qed.

Lemma name_snoc (a : anchor) (l : list string) (x : string) :
  name (mkPath a (l ++ [x])%list) = x.
Proof. unfold name. cbn [names]. apply last_last. Qed.

Lemma name_stem (p : PurePath) : name p = stem p ++ suffix p.
Proof. apply name_stem_suffix. Qed.

Lemma append_inj_l (a b c : string) : a ++ b = a ++ c -> b = c.
Proof.
  induction a as [|x a IH]; simpl; intros H; [exact H|].
  inversion H. now apply IH.
Qed.

End WithSuffixFacts.

(** ** The module's own source (lines 115-120) *)

Section Namesake.
Import Str Pathlib GenMakefiles.

Lemma namesake_comment_text (out src : PurePath) :
  path_single_line out = true -> path_single_line src = true ->
  Textwrap.dedent
    ("                    # The module " ++ str out
       ++ " has a source file " ++ str src ++ nl ++
     "                ")
  = "# The module " ++ str out ++ " has a source file " ++ str src ++ nl.
Proof.
  intros Ho Hs. apply single_line_str in Ho, Hs.
  by_template
    (dedent_one "                    " "                "
       ("# The module " ++ str out ++ " has a source file " ++ str src)
       eq_refl eq_refl eq_refl
       ltac:(rewrite !single_line_app, Ho, Hs; reflexivity)).
Qed.

(** C4.  For a source (without line break in its names) whose name
    with [.ko] for suffix is the module output, the loop body never
    reaches the write of an object line:
    what it writes is nothing (a header, or a suffix that is refused)
    or the one comment line of the association, and for a compilable
    suffix it is that comment, after which the loop goes on. *)
Theorem C4_namesake_comment_only :
  forall (package out src : PurePath) (text : string),
    with_suffix src ".ko" = Ok out ->
    path_single_line src = true ->
    (existsb (String.eqb (lower (suffix src))) _SOURCE_SUFFIXES = true ->
     kbuild_src package out src text
     = (text ++ "# The module " ++ str out ++ " has a source file "
             ++ str src ++ nl,
        Ok tt))
    /\ exists w r,
         kbuild_src package out src text = (text ++ w, r)
         /\ (w = ""
             \/ w = "# The module " ++ str out ++ " has a source file "
                      ++ str src ++ nl).
Proof.
  intros package out src text Hko Hs.
  assert (Ho : path_single_line out = true)
    by (eapply path_single_line_with_suffix; [exact Hs | | exact Hko]; reflexivity).
  assert (Hc : existsb (String.eqb (lower (suffix src))) _SOURCE_SUFFIXES = true ->
               kbuild_src package out src text
               = (text ++ "# The module " ++ str out ++ " has a source file "
                       ++ str src ++ nl, Ok tt)).
  { intros Hc. unfold kbuild_src.
    rewrite (compilable_not_header _ Hc), Hc. cbn [negb].
    unfold bind, lift. rewrite Hko, path_eqb_refl. unfold write.
    now rewrite namesake_comment_text. }
  split; [exact Hc|].
  destruct (contains ".h" (lower (suffix src))) eqn:Eh.
  - exists "", (Ok tt). split; [|now left].
    rewrite append_nil_r. now apply kbuild_src_skip.
  - destruct (existsb (String.eqb (lower (suffix src))) _SOURCE_SUFFIXES) eqn:Ec.
    + eexists. eexists. split; [now apply Hc | now right].
    + eexists "", _. split; [|now left].
      rewrite append_nil_r. now apply kbuild_src_invalid.
Qed.

End Namesake.

(** ** The object lines (lines 121-128) *)

Section ObjectLine.
Import Str Pathlib GenMakefiles.

Lemma names_prefix_snoc (l : list string) (x y : string) :
  names_prefix (l ++ [x])%list (l ++ [y])%list = String.eqb x y.
Proof.
  induction l as [|a l IH]; simpl; [apply andb_true_r|].
  now rewrite String.eqb_refl, IH.
Qed.

Lemma names_snoc_name (p : PurePath) :
  name p <> "" -> names p = (removelast (names p) ++ [name p])%list.
Proof.
  intros H. unfold name. apply app_removelast_last.
  intros E. apply H. unfold name. now rewrite E.
Qed.

Lemma source_lines_text (s1 st s2 : string) :
  single_line s1 = true -> single_line st = true -> single_line s2 = true ->
  Textwrap.dedent
    ("                # Source: " ++ s1 ++ nl ++
     "                " ++ st ++ "-y += " ++ s2 ++ nl ++
     "            ")
  = "# Source: " ++ s1 ++ nl ++ st ++ "-y += " ++ s2 ++ nl.
Proof.
  intros H1 Ht H2.
  by_template
    (dedent_two "                " "            "
       ("# Source: " ++ s1) (st ++ "-y += " ++ s2)
       eq_refl eq_refl eq_refl
       ltac:(rewrite single_line_app, H1; reflexivity)
       ltac:(rewrite blank_app; apply andb_false_r)
       ltac:(rewrite !single_line_app, Ht, H2; reflexivity)).
Qed.

(** The loop body on a compilable source that is not the module's own:
    what is left of it after the first three tests. *)
Lemma kbuild_src_compilable (package out src : PurePath) (text : string) :
  existsb (String.eqb (lower (suffix src))) _SOURCE_SUFFIXES = true ->
  with_suffix src ".ko" <> Ok out ->
  name src <> ""
  /\ kbuild_src package out src text
     = (if negb (is_relative_to src (parent out)) then
          die (str src ++ " is not a valid source because it is not under "
                 ++ str (parent out))
        else
          out' <- lift (relative_to
                          (mkPath (root src)
                             (removelast (names src)
                                ++ [(stem src ++ ".o")%string])%list)
                          (parent out)) ;;
          stem' <- lift (with_suffix out "") ;;
          write (Textwrap.dedent
                   ("                # Source: " ++ str (joinpath package src) ++ nl ++
                    "                " ++ name stem' ++ "-y += " ++ str out' ++ nl ++
                    "            "))) text.
Proof.
  intros Hc Hnk.
  assert (Hsn : name src <> "").
  { apply suffix_nonempty_name. intros E. rewrite E in Hc. discriminate Hc. }
  split; [exact Hsn|].
  pose proof (with_suffix_ok src ".ko" eq_refl eq_refl Hsn) as Eko.
  pose proof (with_suffix_ok src ".o" eq_refl eq_refl Hsn) as Eo.
  unfold kbuild_src. rewrite (compilable_not_header _ Hc), Hc. cbn [negb].
  unfold bind at 1, lift at 1. rewrite Eko.
  destruct (path_eqb _ out) eqn:E.
  - apply path_eqb_eq in E. exfalso. apply Hnk. now rewrite Eko, E.
  - destruct (negb (is_relative_to src (parent out))); [reflexivity|].
    unfold bind at 1, lift at 1. now rewrite Eo.
Qed.

(** The comment of an object line names the declared source: the
    package joined with the relative source is the source again. *)
Lemma joinpath_relative_to (src package rel : PurePath) :
  relative_to src package = Ok rel -> joinpath package rel = src.
Proof.
  unfold relative_to.
  destruct (anchor_eqb (root src) (root package)) eqn:Ha; [|discriminate].
  destruct (names_prefix (names package) (names src)) eqn:Hn; [|discriminate].
  intros H. inversion H; subst. clear H.
  apply anchor_eqb_eq in Ha. apply names_prefix_inv in Hn.
  unfold joinpath. cbn [root names]. rewrite <- Hn, <- Ha.
  now destruct src.
Qed.

(** C6.  For a compilable source that is not the module's own, when
    the module output ends in [.ko] (the check of line 96) and no name
    of the paths holds a line break: a source that does not lie below
    the directory of the module output stops the generator with a
    non-zero exit status and writes nothing; a source below it makes
    the loop write the comment with the original path and the line that
    appends to [<stem>-y] the source with [.o] for suffix, relative to
    that directory. *)
Theorem C6_object_line_or_fatal :
  forall (package out src : PurePath),
    existsb (String.eqb (lower (suffix src))) _SOURCE_SUFFIXES = true ->
    with_suffix src ".ko" <> Ok out ->
    suffix out = ".ko" ->
    path_single_line package = true ->
    path_single_line out = true ->
    path_single_line src = true ->
    (resides_under src (parent out) = false ->
     (forall text,
        exists f,
          kbuild_src package out src text = (text, Fail f)
          /\ exit_status (Some f) <> 0
          /\ f = (if is_relative_to src (parent out) then Uncaught ValueError
                  else SysExit 1
                         (str src
                            ++ " is not a valid source because it is not under "
                            ++ str (parent out))))
     /\ forall om srcs incs symvers defs copt_file fs,
          In src (rel_srcs_of package srcs) ->
          exists fs' f,
            run (gen_ddk_makefile om out srcs incs symvers package defs
                                  copt_file) fs
            = (fs', Some f)
            /\ exit_status (Some f) <> 0)
    /\ (resides_under src (parent out) = true ->
        forall text,
        exists obj o,
          with_suffix src ".o" = Ok obj
          /\ relative_to obj (parent out) = Ok o
          /\ name out = stem out ++ ".ko"
          /\ kbuild_src package out src text
             = (text ++ "# Source: " ++ str (joinpath package src) ++ nl ++
                        stem out ++ "-y += " ++ str o ++ nl,
                Ok tt)).
Proof.
  intros package out src Hc Hnk Hko Hp Ho Hs.
  assert (Hsn : name src <> "")
    by exact (proj1 (kbuild_src_compilable package out src "" Hc Hnk)).
  assert (Hon : name out <> "").
  { apply suffix_nonempty_name. rewrite Hko. discriminate. }
  pose proof (with_suffix_ok src ".o" eq_refl eq_refl Hsn) as Eo.
  pose proof (with_suffix_ok out "" eq_refl eq_refl Hon) as Est.
  unfold resides_under.
  assert (Hstop : is_relative_to src (parent out) && negb (path_eqb src (parent out))
                  = false ->
                  forall text,
                  exists f,
                    kbuild_src package out src text = (text, Fail f)
                    /\ exit_status (Some f) <> 0
                    /\ f = (if is_relative_to src (parent out)
                            then Uncaught ValueError
                            else SysExit 1
                                   (str src
                                      ++ " is not a valid source because it is not under "
                                      ++ str (parent out)))).
  { intros Hru text.
    rewrite (proj2 (kbuild_src_compilable package out src text Hc Hnk)).
    destruct (is_relative_to src (parent out)) eqn:Er; cbn [negb].
    - cbn [andb] in Hru. apply negb_false_iff, path_eqb_eq in Hru.
      exists (Uncaught ValueError).
      split; [|split; [discriminate | reflexivity]].
      unfold bind, lift.
      rewrite is_relative_to_false; [reflexivity|].
      unfold is_relative_to, relative_to. rewrite <- Hru. cbn [root names].
      rewrite (names_snoc_name src Hsn) at 1.
      rewrite names_prefix_snoc.
      destruct (String.eqb_spec (name src) (stem src ++ ".o")) as [E|_];
        [|now rewrite andb_false_r].
      exfalso. rewrite (name_stem src) in E. apply append_inj_l in E.
      rewrite E in Hc. discriminate Hc.
    - eexists. split; [reflexivity|]. split; [discriminate | reflexivity]. }
  split.
  - intros Hru. split; [exact (Hstop Hru)|].
    intros om srcs incs symvers defs copt_file fs Hin.
    apply run_stops_on_source with (rel := src); [exact Hin|].
    intros text. destruct (Hstop Hru text) as (f & Hf & _). now exists f.
  - intros Hru text.
    rewrite (proj2 (kbuild_src_compilable package out src text Hc Hnk)).
    apply andb_true_iff in Hru as [Er Hne].
    apply negb_true_iff, path_eqb_neq in Hne. rewrite Er. cbn [negb].
    destruct (is_relative_to_true _ _ Er) as (_ & Hroot & Hnames).
    set (P := names (parent out)) in *.
    set (rest := skipn (List.length P) (names src)) in *.
    assert (Hrest : rest <> []).
    { intros E. apply Hne. rewrite E, app_nil_r in Hnames.
      destruct src as [a l], (parent out) as [b m]. cbn in *. subst.
      reflexivity. }
    assert (Hobj : (removelast (names src) ++ [(stem src ++ ".o")%string])%list
                   = (P ++ (removelast rest ++ [(stem src ++ ".o")%string]))%list).
    { rewrite Hnames at 1. rewrite removelast_app by exact Hrest.
      now rewrite <- app_assoc. }
    assert (Erel : relative_to
                     (mkPath (root src)
                        (removelast (names src) ++ [(stem src ++ ".o")%string])%list)
                     (parent out)
                   = Ok (mkPath Relative
                           (removelast rest ++ [(stem src ++ ".o")%string])%list)).
    { unfold relative_to. cbn [root names]. rewrite Hobj. fold P.
      rewrite Hroot, names_prefix_app, skipn_app_length.
      replace (anchor_eqb (root (parent out)) (root (parent out))) with true
        by (symmetry; now apply anchor_eqb_eq).
      reflexivity. }
    eexists. eexists. split; [exact Eo|]. split; [exact Erel|].
    split; [rewrite (name_stem out), Hko; reflexivity|].
    unfold bind, lift. rewrite Erel, Est. unfold write.
    rewrite name_snoc, append_nil_r. do 2 f_equal.
    apply source_lines_text.
    + apply single_line_str. now apply path_single_line_joinpath.
    + unfold stem. apply single_line_take. now apply single_line_name.
    + apply single_line_str.
      eapply path_single_line_relative_to; [|exact Erel].
      eapply path_single_line_with_suffix; [exact Hs | | exact Eo]. reflexivity.
Qed.

End ObjectLine.

(** ** The compiler options file (lines 163-179) *)

Section CoptFile.
Import Str Pathlib GenMakefiles.

Lemma forallb_split (c : ascii) (s : string) :
  single_line s = true -> forallb single_line (split c s) = true.
Proof.
  unfold single_line.
  induction s as [|x s IH]; simpl; intros H; [reflexivity|].
  apply andb_true_iff in H as [Hx Hs]. specialize (IH Hs).
  destruct (Ascii.eqb x c); [exact IH|].
  destruct (split c s) as [|l ls]; simpl in *; [now rewrite Hx|].
  apply andb_true_iff in IH as [Hl Hls]. now rewrite Hx, Hl, Hls.
Qed.

Lemma forallb_filter (f g : string -> bool) (l : list string) :
  forallb f l = true -> forallb f (filter g l) = true.
Proof.
  induction l as [|x l IH]; simpl; intros H; [reflexivity|].
  apply andb_true_iff in H as [Hx Hl].
  destruct (g x); simpl; [now rewrite Hx, (IH Hl) | exact (IH Hl)].
Qed.

Lemma path_single_line_parse (s : string) :
  single_line s = true -> path_single_line (parse s) = true.
Proof.
  intros H. unfold path_single_line, parse. cbn [names].
  now apply forallb_filter, forallb_split.
Qed.

Lemma single_line_copt_value (rel_root : PurePath) (d : copt) :
  path_single_line rel_root = true -> single_line (expanded d) = true ->
  single_line (copt_value rel_root d) = true.
Proof.
  intros Hr Hd. unfold copt_value. destruct (is_path d); [|exact Hd].
  apply single_line_str, path_single_line_joinpath; [exact Hr|].
  now apply path_single_line_parse.
Qed.

Lemma join_app (sep : string) (l1 l2 : list string) :
  l1 <> [] -> l2 <> [] ->
  join sep (l1 ++ l2)%list = join sep l1 ++ sep ++ join sep l2.
Proof.
  intros H1 H2. induction l1 as [|x l1 IH]; [contradiction|].
  destruct l1 as [|y l1].
  - destruct l2; [contradiction | reflexivity].
  - change (join sep ((x :: y :: l1) ++ l2)%list)
      with (x ++ sep ++ join sep ((y :: l1) ++ l2)%list).
    rewrite IH by discriminate.
    change (join sep (x :: y :: l1)) with (x ++ sep ++ join sep (y :: l1)).
    now rewrite !append_assoc.
Qed.

Lemma str_named (p : PurePath) :
  names p <> [] -> str p = root_str (root p) ++ join "/" (names p).
Proof.
  destruct p as [a l]. unfold str. cbn [root names].
  intros H. destruct a, l; try reflexivity; contradiction.
Qed.

Lemma parse_relative (e : string) :
  startswith e "/" = false -> root (parse e) = Relative.
Proof. intros H. unfold parse. now rewrite H. Qed.

Lemma parse_rooted (e : string) :
  startswith e "/" = true -> root (parse e) <> Relative.
Proof.
  intros H. unfold parse. rewrite H. cbn [root].
  now destruct (_ && _).
Qed.

(** A relative path joined onto the relative root is the root, a
    slash, and the path. *)
Lemma joinpath_relative (rel_root : PurePath) (e : string) :
  names rel_root <> [] -> startswith e "/" = false ->
  names (parse e) <> [] ->
  str (joinpath rel_root (parse e)) = str rel_root ++ "/" ++ str (parse e).
Proof.
  intros Hr He Hn. unfold joinpath. rewrite (parse_relative _ He).
  rewrite str_named by (cbn [names]; now destruct (names rel_root)).
  cbn [root names]. rewrite join_app by assumption.
  rewrite (str_named rel_root Hr), (str_named (parse e) Hn),
    (parse_relative _ He).
  cbn [root_str]. now rewrite !append_assoc.
Qed.

(** A path with a root replaces the relative root. *)
Lemma joinpath_rooted (rel_root : PurePath) (e : string) :
  startswith e "/" = true -> joinpath rel_root (parse e) = parse e.
Proof.
  intros He. apply parse_rooted in He. unfold joinpath.
  destruct (root (parse e)); [contradiction | reflexivity | reflexivity].
Qed.

Lemma handle_copt_file_text (records : list copt) (rel_root : PurePath)
    (text : string) :
  path_single_line rel_root = true ->
  forallb (fun d => single_line (expanded d)) records = true ->
  _handle_copt_file (Some records) rel_root text
  = (text ++ nl ++ "# copts" ++ nl ++
       cat (map (fun d => "ccflags-y += " ++ Shlex.quote (copt_value rel_root d)
                            ++ nl) records),
     Ok tt).
Proof.
  intros Hr Hd. unfold _handle_copt_file, bind. unfold write at 1 2.
  change (Textwrap.dedent ("        # copts" ++ nl ++ "        "))
    with ("# copts" ++ nl).
  rewrite (for_each_writes _
             (fun d => "ccflags-y += " ++ Shlex.quote (copt_value rel_root d)
                         ++ nl)).
  - now rewrite !append_assoc.
  - intros d Hin text'. rewrite forallb_forall in Hd.
    apply (write_ccflag_text (copt_value rel_root d)).
    apply single_line_copt_value; [exact Hr | now apply Hd].
Qed.

End CoptFile.

(** ** The Kbuild file as a whole (lines 102-152) *)

Section KbuildFile.
Import Str Pathlib GenMakefiles.

Lemma kbuild_header_text (s1 s2 : string) :
  single_line s1 = true -> single_line s2 = true ->
  Textwrap.dedent
    ("            # Build " ++ s1 ++ nl ++
     "            obj-m += " ++ s2 ++ nl ++
     "            ")
  = "# Build " ++ s1 ++ nl ++ "obj-m += " ++ s2 ++ nl.
Proof.
  intros H1 H2.
  by_template
    (dedent_two "            " "            "
       ("# Build " ++ s1) ("obj-m += " ++ s2)
       eq_refl eq_refl eq_refl
       ltac:(rewrite single_line_app, H1; reflexivity)
       eq_refl
       ltac:(rewrite single_line_app, H2; reflexivity)).
Qed.

Lemma single_line_stem (p : PurePath) :
  path_single_line p = true -> single_line (stem p) = true.
Proof.
  intros H. unfold stem. apply single_line_take. now apply single_line_name.
Qed.

(** When the loop over the sources finishes, having turned the header
    into [text1], the Kbuild file is [text1], a blank line, the include
    lines, the define lines and the lines of the options file. *)
Lemma kbuild_body_text (out : PurePath) (rel_srcs incs : list PurePath)
    (package : PurePath) (defs : list string) (copt_file : option (list copt))
    (text1 : string) :
  suffix out = ".ko" ->
  path_single_line package = true ->
  path_single_line out = true ->
  forallb path_single_line incs = true ->
  forallb single_line defs = true ->
  match copt_file with
  | Some records => forallb (fun d => single_line (expanded d)) records
  | None => true
  end = true ->
  for_each rel_srcs (kbuild_src package out)
           ("# Build " ++ str (joinpath package out) ++ nl ++
            "obj-m += " ++ stem out ++ ".o" ++ nl ++ nl)
  = (text1, Ok tt) ->
  kbuild_body out rel_srcs incs package defs copt_file ""
  = (text1 ++ nl
       ++ cat (map (fun inc =>
                      "# Include " ++ str inc ++ nl ++
                      "ccflags-y += "
                        ++ Shlex.quote ("-I$(srctree)/$(src)/"
                                          ++ str (kbuild_rel_root package out)
                                          ++ "/" ++ str inc) ++ nl) incs)
       ++ match defs with
          | [] => ""
          | _ :: _ => nl ++ "# local defines" ++ nl
          end
       ++ cat (map (fun d => "ccflags-y += " ++ Shlex.quote ("-D" ++ d) ++ nl)
                   defs)
       ++ match copt_file with
          | None => ""
          | Some records =>
              nl ++ "# copts" ++ nl ++
              cat (map (fun d => "ccflags-y += "
                                   ++ Shlex.quote
                                        (copt_value (kbuild_rel_root package out) d)
                                   ++ nl) records)
          end,
     Ok tt).
Proof.
  intros Hko Hp Ho Hi Hd Hc Hsrcs.
  assert (Hon : name out <> "").
  { apply suffix_nonempty_name. rewrite Hko. discriminate. }
  assert (Hr : path_single_line (kbuild_rel_root package out) = true)
    by (unfold kbuild_rel_root; apply path_single_line_dotdots).
  unfold kbuild_body. unfold bind at 1, lift at 1.
  rewrite (with_suffix_ok out ".o" eq_refl eq_refl Hon).
  unfold bind at 1, write at 1. unfold bind at 1, write at 1.
  rewrite name_snoc, kbuild_header_text;
    [| apply single_line_str; now apply path_single_line_joinpath
     | rewrite single_line_app, single_line_stem by exact Ho; reflexivity ].
  unfold bind at 1.
  match goal with
  | |- context [for_each rel_srcs ?b ?t] =>
      replace t
        with ("# Build " ++ str (joinpath package out) ++ nl ++
              "obj-m += " ++ stem out ++ ".o" ++ nl ++ nl)
        by (rewrite !append_assoc; reflexivity)
  end.
  rewrite Hsrcs.
  unfold bind at 1, write at 1. cbv zeta. unfold bind at 1.
  rewrite (for_each_writes _
             (fun inc =>
                "# Include " ++ str inc ++ nl ++
                "ccflags-y += "
                  ++ Shlex.quote ("-I$(srctree)/$(src)/"
                                    ++ str (kbuild_rel_root package out)
                                    ++ "/" ++ str inc) ++ nl))
    by (intros inc Hin text'; rewrite forallb_forall in Hi;
        apply kbuild_include_text; [exact Hr | now apply Hi]).
  unfold bind at 1.
  assert (Hdefs : forall t,
             for_each defs (fun local_define => _write_ccflag ("-D" ++ local_define)) t
             = (t ++ cat (map (fun d => "ccflags-y += " ++ Shlex.quote ("-D" ++ d) ++ nl)
                              defs), Ok tt)).
  { intros t. apply for_each_writes. intros d Hin text'.
    rewrite forallb_forall in Hd. apply write_ccflag_text.
    rewrite single_line_app, (Hd d Hin). reflexivity. }
  assert (Hcopt : forall t,
             _handle_copt_file copt_file (kbuild_rel_root package out) t
             = (t ++ match copt_file with
                     | None => ""
                     | Some records =>
                         nl ++ "# copts" ++ nl ++
                         cat (map (fun d => "ccflags-y += "
                                              ++ Shlex.quote
                                                   (copt_value
                                                      (kbuild_rel_root package out) d)
                                              ++ nl) records)
                     end, Ok tt)).
  { intros t. destruct copt_file as [records|].
    - now apply handle_copt_file_text.
    - cbn. unfold ret. now rewrite append_nil_r. }
  destruct defs as [|d defs].
  - unfold ret at 1. unfold bind at 1. rewrite Hdefs, Hcopt.
    cbn [map cat]. now rewrite !append_assoc.
  - unfold bind at 1, write at 1. unfold write at 1.
    change (Textwrap.dedent ("                # local defines" ++ nl ++ "                "))
      with ("# local defines" ++ nl).
    unfold bind at 1. rewrite Hdefs, Hcopt. now rewrite !append_assoc.
Qed.

End KbuildFile.

(** ** Flag lines and runs on concrete inputs *)

Section FlagLinesAndRuns.
Import Str Pathlib GenMakefiles.

(** C8, as first stated, fails.  The expanded string is not kept with
    the relative root in front of it, it is joined to it as a path: for
    the relative path [.] with the relative root [../..] the line is
    [ccflags-y += ../..], not [ccflags-y += ../../.], and for the
    absolute path [/opt/x] it is [ccflags-y += /opt/x], without the
    relative root. *)
Lemma C8_counterexample :
  (_handle_copt_file (Some [mkCopt "." true]) (Path [".."; ".."]) ""
   <> (nl ++ "# copts" ++ nl ++
       "ccflags-y += "
         ++ Shlex.quote (copt_value_prefixed (Path [".."; ".."])
                                             (mkCopt "." true)) ++ nl,
       Ok tt)
   /\ _handle_copt_file (Some [mkCopt "." true]) (Path [".."; ".."]) ""
      = (nl ++ "# copts" ++ nl ++ "ccflags-y += ../.." ++ nl, Ok tt))
  /\ _handle_copt_file (Some [mkCopt "/opt/x" true]) (Path [".."; ".."]) ""
     <> (nl ++ "# copts" ++ nl ++
         "ccflags-y += "
           ++ Shlex.quote (copt_value_prefixed (Path [".."; ".."])
                                               (mkCopt "/opt/x" true)) ++ nl,
         Ok tt)
  /\ _handle_copt_file (Some [mkCopt "/opt/x" true]) (Path [".."; ".."]) ""
     = (nl ++ "# copts" ++ nl ++ "ccflags-y += /opt/x" ++ nl, Ok tt)
  /\ startswith "/opt/x" (str (Path [".."; ".."])) = false.
Proof.
  split; [split; [|reflexivity]|split; [|split; reflexivity]];
    vm_compute; intros H; discriminate H.
Qed.

Lemma str_rooted (p : PurePath) :
  root p <> Relative -> str p = root_str (root p) ++ join "/" (names p).
Proof.
  destruct p as [a l]. unfold str. cbn [root names].
  intros H. destruct a; [contradiction | reflexivity | reflexivity].
Qed.

Lemma str_relative (l : list string) :
  l <> [] -> str (mkPath Relative l) = join "/" l.
Proof. intros H. now rewrite str_named. Qed.

(** When the package has a part, the relative root of the Kbuild file
    is a relative path of at least one double dot. *)
Lemma kbuild_rel_root_named (package out : PurePath) :
  parts package <> [] ->
  root (kbuild_rel_root package out) = Relative
  /\ names (kbuild_rel_root package out) <> [].
Proof.
  intros Hp. rewrite kbuild_rel_root_segments. cbn [root names].
  split; [reflexivity|].
  assert (H : parts (joinpath package (parent out)) <> []).
  { destruct out as [a l], package as [b m].
    unfold joinpath, parts, parent in *. cbn [root names] in *.
    destruct a, b; cbn [root names]; try discriminate.
    intros E. apply app_eq_nil in E as [E _]. contradiction. }
  destruct (parts (joinpath package (parent out))); [contradiction|].
  discriminate.
Qed.

(** C8, amended.  Without options file nothing is written.  With one,
    a blank line and the comment [# copts] are written, then for each
    record in order one shell-quoted [ccflags-y] line.  Its value is
    the expanded string when [is_path] is false; when [is_path] is true
    it is the path join of the relative root, which has at least one
    double dot, and the expanded string.  The components of the
    expanded string are its pieces between slashes other than the empty
    ones and the dots.  For a string that does not begin with a slash
    the join is the names of the relative root followed by these
    components, joined by slashes, hence the relative root alone when
    there is no component; for a string that begins with a slash it is
    the root of that string followed by these components joined by
    slashes, without the relative root.  The record [opt/x] with the
    relative root [../..] gives [ccflags-y += ../../opt/x]. *)
Theorem C8_copt_expansion :
  (forall rel_root text, _handle_copt_file None rel_root text = (text, Ok tt))
  /\ (forall records rel_root text,
        path_single_line rel_root = true ->
        forallb (fun d => single_line (expanded d)) records = true ->
        _handle_copt_file (Some records) rel_root text
        = (text ++ nl ++ "# copts" ++ nl ++
             cat (map (fun d => "ccflags-y += "
                                  ++ Shlex.quote (copt_value rel_root d) ++ nl)
                      records),
           Ok tt))
  /\ (forall rel_root e, copt_value rel_root (mkCopt e false) = e)
  /\ (forall package out,
        parts package <> [] ->
        root (kbuild_rel_root package out) = Relative
        /\ names (kbuild_rel_root package out) <> [])
  /\ (forall e,
        names (parse e)
        = filter (fun x => negb (String.eqb x "") && negb (String.eqb x "."))
                 (split "/"%char e))
  /\ (forall rel_root e,
        root rel_root = Relative -> names rel_root <> [] ->
        startswith e "/" = false ->
        str rel_root = join "/" (names rel_root)
        /\ copt_value rel_root (mkCopt e true)
           = join "/" (names rel_root ++ names (parse e))
        /\ (names (parse e) = [] ->
            copt_value rel_root (mkCopt e true) = str rel_root))
  /\ (forall rel_root e,
        startswith e "/" = true ->
        root (parse e)
        = (if startswith (drop 1 e) "/" && negb (startswith (drop 2 e) "/")
           then Root2 else Root)
        /\ copt_value rel_root (mkCopt e true)
           = root_str (root (parse e)) ++ join "/" (names (parse e)))
  /\ _handle_copt_file (Some [mkCopt "opt/x" true]) (Path [".."; ".."]) ""
     = (nl ++ "# copts" ++ nl ++ "ccflags-y += ../../opt/x" ++ nl, Ok tt).
Proof.
  split; [reflexivity|].
  split; [intros; now apply handle_copt_file_text|].
  split; [reflexivity|].
  split; [apply kbuild_rel_root_named|].
  split; [reflexivity|].
  split.
  { intros rel_root e Hr Hn He.
    assert (Hs : str rel_root = join "/" (names rel_root)).
    { rewrite (str_named _ Hn), Hr. reflexivity. }
    assert (Hv : copt_value rel_root (mkCopt e true)
                 = join "/" (names rel_root ++ names (parse e))).
    { unfold copt_value. cbn [is_path expanded]. unfold joinpath.
      rewrite (parse_relative _ He), Hr. apply str_relative.
      intros E. apply app_eq_nil in E as [E _]. contradiction. }
    split; [exact Hs|]. split; [exact Hv|].
    intros E. now rewrite Hv, E, app_nil_r, Hs. }
  split; [|reflexivity].
  intros rel_root e He. split.
  - unfold parse. now rewrite He.
  - unfold copt_value. cbn [is_path expanded].
    rewrite (joinpath_rooted _ _ He). apply str_rooted.
    now apply parse_rooted.
Qed.

(** C2, as first stated, fails: in its scenario the Kbuild file has no
    line [ccflags-y += -I$(srctree)/$(src)/../inc]. *)
Lemma C2_counterexample :
  exists text,
    fst (run (gen_ddk_makefile (parse "out") (parse "a/b/c/mod.ko") []
                               [parse "inc"] [] (parse "a/b") [] None)
             empty_fs)
        (parse "out/a/b/c/Kbuild")
    = Some text
    /\ ~ In "ccflags-y += -I$(srctree)/$(src)/../inc" (lines text).
Proof.
  eexists. split; [vm_compute; reflexivity|].
  vm_compute. intros H.
  repeat (destruct H as [H|H]; [discriminate H|]). exact H.
Qed.

(** C2, amended.  In the scenario the include line of the Kbuild file
    is [ccflags-y += '-I$(srctree)/$(src)/../../../../../inc'].  In
    general the relative root has one double dot for each part of the
    package joined with the directory of the module output, the flag
    [-I$(srctree)/$(src)/<relative root>/<include directory>] is always
    put in single quotes, and the loop writes for each include
    directory, in order, a comment and that one [ccflags-y] line. *)
Theorem C2_include_flag_lines :
  (exists text,
      fst (run (gen_ddk_makefile (parse "out") (parse "a/b/c/mod.ko") []
                                 [parse "inc"] [] (parse "a/b") [] None)
               empty_fs)
          (parse "out/a/b/c/Kbuild")
      = Some text
      /\ In "ccflags-y += '-I$(srctree)/$(src)/../../../../../inc'"
            (lines text))
  /\ (forall package out,
        kbuild_rel_root package out
        = mkPath Relative
            (repeat ".." (List.length (parts (joinpath package (parent out))))))
  /\ (forall s,
        Shlex.quote ("-I$(srctree)/$(src)/" ++ s)
        = sq ++ replace_char sq_char (sq ++ dq ++ sq ++ dq ++ sq)
                  ("-I$(srctree)/$(src)/" ++ s) ++ sq)
  /\ (forall package out incs text,
        forallb path_single_line incs = true ->
        for_each incs (kbuild_include (kbuild_rel_root package out)) text
        = (text ++ cat (map (fun inc =>
                               "# Include " ++ str inc ++ nl ++
                               "ccflags-y += "
                                 ++ Shlex.quote
                                      ("-I$(srctree)/$(src)/"
                                         ++ str (kbuild_rel_root package out)
                                         ++ "/" ++ str inc) ++ nl)
                            incs),
           Ok tt)).
Proof.
  split.
  { eexists. split; [vm_compute; reflexivity|].
    vm_compute. do 5 right. left. reflexivity. }
  split; [apply kbuild_rel_root_segments|].
  split; [reflexivity|].
  intros package out incs text Hi. apply for_each_writes.
  intros inc Hin text'. rewrite forallb_forall in Hi.
  apply kbuild_include_text; [|now apply Hi].
  unfold kbuild_rel_root. apply path_single_line_dotdots.
Qed.

(** C3, at its failing input.  The source [a/b/c/README] of the
    package [a/b] has no suffix, so neither a header suffix nor one of
    [_SOURCE_SUFFIXES]; the run does not stop on it: it ends with exit
    status 0 and a Kbuild file without any line for that source. *)
Theorem C3_suffixless_source_not_fatal :
  suffix (parse "a/b/c/README") = ""
  /\ lower (suffix (parse "a/b/c/README")) <> ".h"
  /\ existsb (String.eqb (lower (suffix (parse "a/b/c/README"))))
             _SOURCE_SUFFIXES = false
  /\ snd (run (gen_ddk_makefile (parse "out") (parse "c/mod.ko")
                                [parse "a/b/c/README"] [] [] (parse "a/b") []
                                None)
              empty_fs)
     = None
  /\ fst (run (gen_ddk_makefile (parse "out") (parse "c/mod.ko")
                                [parse "a/b/c/README"] [] [] (parse "a/b") []
                                None)
              empty_fs)
         (parse "out/c/Kbuild")
     = Some ("# Build a/b/c/mod.ko" ++ nl ++ "obj-m += mod.o" ++ nl ++ nl ++ nl).
Proof.
  split; [reflexivity|]. split; [discriminate|]. split; [reflexivity|].
  split; vm_compute; reflexivity.
Qed.

(** The module [c/mod.ko] of the package [a/b] with its own source, a
    second source and a header: the Kbuild file and the top-level
    Kbuild file. *)
Example kbuild_of_three_sources :
  let r := run (gen_ddk_makefile (parse "out") (parse "c/mod.ko")
                  [parse "a/b/c/mod.c"; parse "a/b/c/helper.c";
                   parse "a/b/c/helper.h"]
                  [] [] (parse "a/b") ["FOO=1"] None) empty_fs in
  snd r = None
  /\ fst r (parse "out/c/Kbuild")
     = Some ("# Build a/b/c/mod.ko" ++ nl ++
             "obj-m += mod.o" ++ nl ++
             nl ++
             "# The module c/mod.ko has a source file c/mod.c" ++ nl ++
             "# Source: a/b/c/helper.c" ++ nl ++
             "mod-y += helper.o" ++ nl ++
             nl ++
             nl ++
             "# local defines" ++ nl ++
             "ccflags-y += -DFOO=1" ++ nl)
  /\ fst r (parse "out/Kbuild")
     = Some ("# Build a/b/c/mod.ko" ++ nl ++ "obj-y += c/" ++ nl).
Proof. vm_compute. repeat split. Qed.

End FlagLinesAndRuns.

(** ** The theorems at concrete inputs *)

Section Witnesses.
Import Str Pathlib GenMakefiles.

Lemma C7_makefile_contents_witness :
  parts (parse "a/b") <> []
  /\ forallb path_single_line [parse "dep/Module.symvers"] = true
  /\ run (_gen_makefile (parse "a/b") [parse "dep/Module.symvers"]
                        (parse "out/Makefile")) empty_fs
     = (write_file empty_fs (parse "out/Makefile")
          ("# Include symbol: dep/Module.symvers" ++ nl ++
           "EXTRA_SYMBOLS += $(OUT_DIR)/$(M)/../../dep/Module.symvers" ++ nl ++
           "modules modules_install clean:" ++ nl ++
           tab ++ "$(MAKE) -C $(KERNEL_SRC) M=$(M) $(KBUILD_OPTIONS) KBUILD_EXTRA_SYMBOLS="
               ++ dq ++ "$(EXTRA_SYMBOLS)" ++ dq ++ " $(@)" ++ nl),
        None).
Proof.
  assert (H1 : parts (parse "a/b") <> []) by discriminate.
  assert (H2 : forallb path_single_line [parse "dep/Module.symvers"] = true)
    by reflexivity.
  split; [exact H1|]. split; [exact H2|].
  exact (C7_makefile_contents (parse "a/b") [parse "dep/Module.symvers"]
           (parse "out/Makefile") empty_fs H1 H2).
Defined.

Lemma C9_invalid_output_keeps_makefile_witness :
  String.eqb (suffix (parse "a/b/mod.bad")) ".ko" = false
  /\ parts (parse "a/b") <> []
  /\ exists (fs' : FS) (content : string),
       run (gen_ddk_makefile (parse "out") (parse "a/b/mod.bad")
                             [parse "a/b/mod.c"] [] [] (parse "a/b") [] None)
           empty_fs
       = (fs', Some (SysExit 1 ("Invalid output: " ++ str (parse "a/b/mod.bad")
                                  ++ "; must end with .ko")))
       /\ exit_status (Some (SysExit 1 ("Invalid output: "
                                          ++ str (parse "a/b/mod.bad")
                                          ++ "; must end with .ko"))) <> 0
       /\ fs' (joinpath (parse "out") (parse "Makefile")) = Some content
       /\ forall p, p <> joinpath (parse "out") (parse "Makefile") ->
                    fs' p = empty_fs p.
Proof.
  assert (H1 : String.eqb (suffix (parse "a/b/mod.bad")) ".ko" = false)
    by reflexivity.
  assert (H2 : parts (parse "a/b") <> []) by discriminate.
  split; [exact H1|]. split; [exact H2|].
  exact (C9_invalid_output_keeps_makefile (parse "out") (parse "a/b/mod.bad")
           [parse "a/b/mod.c"] [] [] (parse "a/b") [] None empty_fs H1 H2).
Defined.

Lemma C5_header_source_skipped_witness :
  lower (suffix (parse "a/b/c/helper.H")) = ".h"
  /\ (forall text,
        kbuild_src (parse "a/b") (parse "c/mod.ko") (parse "a/b/c/helper.H") text
        = (text, Ok tt))
  /\ forall fs,
       run (gen_ddk_makefile (parse "out") (parse "c/mod.ko")
              ([parse "a/b/c/mod.c"] ++ parse "a/b/c/helper.H" :: [])%list
              [] [] (parse "a/b") [] None) fs
       = run (gen_ddk_makefile (parse "out") (parse "c/mod.ko")
                ([parse "a/b/c/mod.c"] ++ [])%list [] [] (parse "a/b") [] None)
             fs.
Proof.
  assert (H : lower (suffix (parse "a/b/c/helper.H")) = ".h") by reflexivity.
  split; [exact H|].
  exact (C5_header_source_skipped (parse "out") (parse "c/mod.ko")
           (parse "a/b/c/helper.H") [parse "a/b/c/mod.c"] [] [] []
           (parse "a/b") [] None H).
Defined.

Lemma C10_suffixless_source_skipped_witness :
  is_relative_to (parse "a/b/c/README") (parse "a/b") = true
  /\ suffix (parse "a/b/c/README") = ""
  /\ forall fs,
       run (gen_ddk_makefile (parse "out") (parse "c/mod.ko")
              ([parse "a/b/c/mod.c"] ++ parse "a/b/c/README" :: [])%list
              [] [] (parse "a/b") [] None) fs
       = run (gen_ddk_makefile (parse "out") (parse "c/mod.ko")
                ([parse "a/b/c/mod.c"] ++ [])%list [] [] (parse "a/b") [] None)
             fs.
Proof.
  assert (H1 : is_relative_to (parse "a/b/c/README") (parse "a/b") = true)
    by reflexivity.
  assert (H2 : suffix (parse "a/b/c/README") = "") by reflexivity.
  split; [exact H1|]. split; [exact H2|].
  exact (proj2 (C10_suffixless_source_skipped (parse "out") (parse "c/mod.ko")
                  (parse "a/b/c/README") [parse "a/b/c/mod.c"] [] [] []
                  (parse "a/b") [] None H1 H2)).
Defined.

Lemma C4_namesake_comment_only_witness :
  with_suffix (parse "c/mod.c") ".ko" = Ok (parse "c/mod.ko")
  /\ path_single_line (parse "c/mod.c") = true
  /\ kbuild_src (parse "a/b") (parse "c/mod.ko") (parse "c/mod.c") ""
     = ("# The module c/mod.ko has a source file c/mod.c" ++ nl, Ok tt).
Proof.
  assert (H1 : with_suffix (parse "c/mod.c") ".ko" = Ok (parse "c/mod.ko"))
    by reflexivity.
  assert (H2 : path_single_line (parse "c/mod.c") = true) by reflexivity.
  split; [exact H1|]. split; [exact H2|].
  exact (proj1 (C4_namesake_comment_only (parse "a/b") (parse "c/mod.ko")
                  (parse "c/mod.c") "" H1 H2) eq_refl).
Defined.

Lemma C6_object_line_or_fatal_witness :
  resides_under (parse "c/helper.c") (parent (parse "c/mod.ko")) = true
  /\ resides_under (parse "other/helper.c") (parent (parse "c/mod.ko")) = false
  /\ (exists obj o,
         with_suffix (parse "c/helper.c") ".o" = Ok obj
         /\ relative_to obj (parent (parse "c/mod.ko")) = Ok o
         /\ name (parse "c/mod.ko") = stem (parse "c/mod.ko") ++ ".ko"
         /\ kbuild_src (parse "a/b") (parse "c/mod.ko") (parse "c/helper.c") ""
            = ("" ++ "# Source: " ++ str (joinpath (parse "a/b") (parse "c/helper.c"))
                  ++ nl ++ stem (parse "c/mod.ko") ++ "-y += " ++ str o ++ nl,
               Ok tt))
  /\ (exists f,
         kbuild_src (parse "a/b") (parse "c/mod.ko") (parse "other/helper.c") ""
         = ("", Fail f)
         /\ exit_status (Some f) <> 0
         /\ f = (if is_relative_to (parse "other/helper.c")
                                   (parent (parse "c/mod.ko"))
                 then Uncaught ValueError
                 else SysExit 1
                        (str (parse "other/helper.c")
                           ++ " is not a valid source because it is not under "
                           ++ str (parent (parse "c/mod.ko"))))).
Proof.
  assert (N1 : with_suffix (parse "c/helper.c") ".ko" <> Ok (parse "c/mod.ko"))
    by (intros H; discriminate H).
  assert (N2 : with_suffix (parse "other/helper.c") ".ko" <> Ok (parse "c/mod.ko"))
    by (intros H; discriminate H).
  split; [reflexivity|]. split; [reflexivity|]. split.
  - exact (proj2 (C6_object_line_or_fatal (parse "a/b") (parse "c/mod.ko")
                    (parse "c/helper.c") eq_refl N1 eq_refl eq_refl eq_refl
                    eq_refl) eq_refl "").
  - exact (proj1 (proj1 (C6_object_line_or_fatal (parse "a/b") (parse "c/mod.ko")
                           (parse "other/helper.c") eq_refl N2 eq_refl eq_refl
                           eq_refl eq_refl) eq_refl) "").
Defined.

Lemma C2_include_flag_lines_witness :
  forallb path_single_line [parse "inc"; parse "include/uapi"] = true
  /\ for_each [parse "inc"; parse "include/uapi"]
              (kbuild_include (kbuild_rel_root (parse "a/b") (parse "c/mod.ko")))
              ""
     = ("# Include inc" ++ nl ++
        "ccflags-y += '-I$(srctree)/$(src)/../../../inc'" ++ nl ++
        "# Include include/uapi" ++ nl ++
        "ccflags-y += '-I$(srctree)/$(src)/../../../include/uapi'" ++ nl,
        Ok tt).
Proof.
  assert (H : forallb path_single_line [parse "inc"; parse "include/uapi"] = true)
    by reflexivity.
  split; [exact H|].
  exact (proj2 (proj2 (proj2 C2_include_flag_lines))
           (parse "a/b") (parse "c/mod.ko")
           [parse "inc"; parse "include/uapi"] "" H).
Defined.

Lemma C8_copt_expansion_witness :
  path_single_line (Path [".."; ".."]) = true
  /\ forallb (fun d => single_line (expanded d))
             [mkCopt "opt/x" true; mkCopt "-Wall" false; mkCopt "." true;
              mkCopt "opt/x" true]
     = true
  /\ _handle_copt_file
       (Some [mkCopt "opt/x" true; mkCopt "-Wall" false; mkCopt "." true;
              mkCopt "opt/x" true])
       (Path [".."; ".."]) ""
     = (nl ++ "# copts" ++ nl ++
        "ccflags-y += ../../opt/x" ++ nl ++
        "ccflags-y += -Wall" ++ nl ++
        "ccflags-y += ../.." ++ nl ++
        "ccflags-y += ../../opt/x" ++ nl,
        Ok tt).
Proof.
  assert (H1 : path_single_line (Path [".."; ".."]) = true) by reflexivity.
  assert (H2 : forallb (fun d => single_line (expanded d))
                 [mkCopt "opt/x" true; mkCopt "-Wall" false; mkCopt "." true;
                  mkCopt "opt/x" true]
               = true) by reflexivity.
  split; [exact H1|]. split; [exact H2|].
  exact (proj1 (proj2 C8_copt_expansion)
           [mkCopt "opt/x" true; mkCopt "-Wall" false; mkCopt "." true;
            mkCopt "opt/x" true]
           (Path [".."; ".."]) "" H1 H2).
Defined.

End Witnesses.

(** ** The files that a run writes *)

Section WrittenFiles.
Import Str Pathlib GenMakefiles.

Lemma apply_writes_lookup (ws : list (PurePath * string)) (fs : FS)
    (p : PurePath) :
  apply_writes ws fs p
  = match last_write ws p with
    | Some c => Some c
    | None => fs p
    end.
Proof.
  revert fs. induction ws as [|w ws IH]; intros fs; [reflexivity|].
  unfold apply_writes in *. cbn [fold_left last_write]. rewrite IH.
  destruct (last_write ws p); [reflexivity|].
  unfold write_file. now destruct (path_eqb p (fst w)).
Qed.

Lemma last_write_none (ws : list (PurePath * string)) (p : PurePath) :
  (forall w, In w ws -> fst w <> p) -> last_write ws p = None.
Proof.
  induction ws as [|w ws IH]; intros H; [reflexivity|].
  cbn [last_write]. rewrite IH by (intros w' Hw; apply H; now right).
  destruct (path_eqb p (fst w)) eqn:E; [|reflexivity].
  apply path_eqb_eq in E. exfalso. apply (H w); [now left | now symmetry].
Qed.

Lemma joinpath_file (x : PurePath) (n : string) :
  parse n = mkPath Relative [n] ->
  joinpath x (parse n) = mkPath (root x) (names x ++ [n])%list.
Proof. intros ->. reflexivity. Qed.

Lemma makefile_not_kbuild (x y : PurePath) :
  joinpath x (parse "Makefile") <> joinpath y (parse "Kbuild").
Proof.
  rewrite !joinpath_file by reflexivity. intros H.
  apply (f_equal names) in H. cbn [names] in H.
  apply app_inj_tail in H as [_ Hn]. discriminate Hn.
Qed.

(** A run is a sequence of at most three writes that does not depend on
    the output tree it starts from: the Makefile, then the Kbuild file
    of the module, then the top-level Kbuild file. *)
Lemma run_is_writes (om out : PurePath) (srcs incs symvers : list PurePath)
    (package : PurePath) (defs : list string) (copt_file : option (list copt)) :
  exists ws st,
    (forall fs,
        run (gen_ddk_makefile om out srcs incs symvers package defs copt_file) fs
        = (apply_writes ws fs, st))
    /\ forall w, In w ws ->
                 fst w = makefile_of om \/ fst w = kbuild_of om out
                 \/ fst w = top_kbuild_of om.
Proof.
  unfold run.
  destruct (OsPath.join (repeat ".." (List.length (parts package))))
    as [rel_root|f] eqn:Ej.
  2:{ exists [], (Some f). split; [|intros w []].
      intros fs. now rewrite gen_ddk_makefile_run, gen_makefile_run, Ej. }
  set (mk := (makefile_of om,
              cat (map (symvers_lines rel_root) symvers) ++ makefile_stanza)).
  destruct (negb (String.eqb (suffix out) ".ko")) eqn:Eko.
  { exists [mk], (Some (SysExit 1 ("Invalid output: " ++ str out
                                    ++ "; must end with .ko"))).
    split.
    - intros fs. now rewrite gen_ddk_makefile_run, gen_makefile_run, Ej, Eko.
    - intros w [<-|[]]. now left. }
  destruct (kbuild_body out (rel_srcs_of package srcs) incs package defs
                        copt_file "") as [text [[]|f]] eqn:Ek.
  2:{ exists [mk; (kbuild_of om out, text)], (Some f). split.
      - intros fs.
        now rewrite gen_ddk_makefile_run, gen_makefile_run, Ej, Eko, Ek.
      - intros w [<-|[<-|[]]]; auto. }
  destruct (negb (path_eqb (joinpath om (parse "Kbuild"))
                           (joinpath (joinpath om (parent out)) (parse "Kbuild"))))
    eqn:Et.
  - eexists [mk; (kbuild_of om out, text); (top_kbuild_of om, _)], None. split.
    + intros fs.
      rewrite gen_ddk_makefile_run, gen_makefile_run, Ej, Eko, Ek. cbv zeta.
      rewrite Et. reflexivity.
    + intros w [<-|[<-|[<-|[]]]]; auto.
  - exists [mk; (kbuild_of om out, text)], None. split.
    + intros fs.
      rewrite gen_ddk_makefile_run, gen_makefile_run, Ej, Eko, Ek. cbv zeta.
      now rewrite Et.
    + intros w [<-|[<-|[]]]; auto.
Qed.

(** X1.  Whatever the inputs and however the run ends, the only paths
    whose content can change are the Makefile, the Kbuild file of the
    module and the top-level Kbuild file; every other file of the
    output tree is left as it was. *)
Theorem X1_only_three_files_written :
  forall (om out : PurePath) (srcs incs symvers : list PurePath)
         (package : PurePath) (defs : list string)
         (copt_file : option (list copt)) (fs : FS) (p : PurePath),
    p <> makefile_of om -> p <> kbuild_of om out -> p <> top_kbuild_of om ->
    fst (run (gen_ddk_makefile om out srcs incs symvers package defs copt_file)
             fs) p
    = fs p.
Proof.
  intros om out srcs incs symvers package defs copt_file fs p H1 H2 H3.
  destruct (run_is_writes om out srcs incs symvers package defs copt_file)
    as (ws & st & Hrun & Hws).
  rewrite Hrun. cbn [fst]. rewrite apply_writes_lookup, last_write_none;
    [reflexivity|].
  intros w Hw E. destruct (Hws w Hw) as [H|[H|H]]; congruence.
Qed.

(** X2.  The files are opened for writing, not for appending, and the
    generator reads nothing back: a second run with the same arguments
    over the tree that the first run left ends the same way and leaves
    every file as the first run left it. *)
Theorem X2_second_run_changes_nothing :
  forall (om out : PurePath) (srcs incs symvers : list PurePath)
         (package : PurePath) (defs : list string)
         (copt_file : option (list copt)) (fs : FS),
    let g := gen_ddk_makefile om out srcs incs symvers package defs copt_file in
    snd (run g (fst (run g fs))) = snd (run g fs)
    /\ forall p, fst (run g (fst (run g fs))) p = fst (run g fs) p.
Proof.
  intros om out srcs incs symvers package defs copt_file fs g.
  destruct (run_is_writes om out srcs incs symvers package defs copt_file)
    as (ws & st & Hrun & _).
  subst g. rewrite !Hrun. cbn [fst snd]. split; [reflexivity|].
  intros p. rewrite !apply_writes_lookup. now destruct (last_write ws p).
Qed.

(** X3.  For a package of at least one segment the Makefile is in the
    output tree after every run, also one that stops at a later step,
    and its content is fixed by the package and the dependency list
    alone: no other argument and no later write changes it. *)
Theorem X3_makefile_after_every_run :
  forall (om out : PurePath) (srcs incs symvers : list PurePath)
         (package : PurePath) (defs : list string)
         (copt_file : option (list copt)) (fs : FS),
    parts package <> [] ->
    fst (run (gen_ddk_makefile om out srcs incs symvers package defs copt_file)
             fs) (makefile_of om)
    = Some (cat (map (symvers_lines
                        (join "/" (repeat ".." (List.length (parts package)))))
                     symvers)
            ++ makefile_stanza).
Proof.
  intros om out srcs incs symvers package defs copt_file fs Hp.
  destruct (parts_nonempty_length _ Hp) as [d Hd].
  assert (Hk : forall x, makefile_of om <> joinpath x (parse "Kbuild"))
    by (intros x; apply makefile_not_kbuild).
  unfold run.
  rewrite gen_ddk_makefile_run, gen_makefile_run, Hd, makefile_rel_root_segments.
  fold (makefile_of om).
  destruct (negb (String.eqb (suffix out) ".ko")); [apply write_file_same|].
  cbv zeta.
  destruct (kbuild_body _ _ _ _ _ _ "") as [text [[]|f]]; cbn [fst].
  - destruct (negb (path_eqb _ _)); cbn [fst].
    + unfold with_open, write. cbn [fst].
      rewrite !write_file_other by apply Hk. apply write_file_same.
    + rewrite write_file_other by apply Hk. apply write_file_same.
  - rewrite write_file_other by apply Hk. apply write_file_same.
Qed.

End WrittenFiles.

(** ** When a run succeeds *)

Section Success.
Import Str Pathlib GenMakefiles.

Lemma never_fails_ret {S : Type} : never_fails (ret (S := S) tt).
Proof. intros s. now exists s. Qed.

Lemma never_fails_write (w : string) : never_fails (write w).
Proof. intros s. now eexists. Qed.

Lemma never_fails_seq {S : Type} (m k : M S unit) :
  never_fails m -> never_fails k -> never_fails (m ;; k).
Proof.
  intros Hm Hk s. unfold bind. destruct (Hm s) as [s1 ->]. apply Hk.
Qed.

Lemma never_fails_for_each {S A : Type} (l : list A) (body : A -> M S unit) :
  (forall x, In x l -> never_fails (body x)) -> never_fails (for_each l body).
Proof.
  induction l as [|x l IH]; intros H; cbn [for_each].
  - apply never_fails_ret.
  - apply never_fails_seq; [apply H; now left|].
    apply IH. intros y Hy. apply H. now right.
Qed.

Lemma never_fails_write_ccflag (ccflag : string) :
  never_fails (_write_ccflag ccflag).
Proof. apply never_fails_write. Qed.

Lemma never_fails_kbuild_include (rel_root inc : PurePath) :
  never_fails (kbuild_include rel_root inc).
Proof.
  unfold kbuild_include.
  apply never_fails_seq; [apply never_fails_write | apply never_fails_write_ccflag].
Qed.

Lemma never_fails_handle_copt_file (copt_file : option (list copt))
    (rel_root : PurePath) :
  never_fails (_handle_copt_file copt_file rel_root).
Proof.
  destruct copt_file as [records|]; cbn [_handle_copt_file];
    [|apply never_fails_ret].
  repeat (apply never_fails_seq; [apply never_fails_write|]).
  apply never_fails_for_each. intros d _. apply never_fails_write_ccflag.
Qed.

(** What follows the loop over the sources cannot stop the run: the
    include directories, the defines and the options go through
    whatever they hold. *)
Lemma never_fails_after_sources (out : PurePath) (incs : list PurePath)
    (package : PurePath) (defs : list string) (copt_file : option (list copt)) :
  never_fails
    (write nl ;;
     for_each incs (kbuild_include (kbuild_rel_root package out)) ;;
     match defs with
     | [] => ret tt
     | _ :: _ =>
         write nl ;;
         write (Textwrap.dedent
                  ("                # local defines" ++ nl ++
                   "                "))
     end ;;
     for_each defs (fun local_define => _write_ccflag ("-D" ++ local_define)) ;;
     _handle_copt_file copt_file (kbuild_rel_root package out)).
Proof.
  apply never_fails_seq; [apply never_fails_write|].
  apply never_fails_seq;
    [apply never_fails_for_each; intros; apply never_fails_kbuild_include|].
  apply never_fails_seq.
  { destruct defs; [apply never_fails_ret|].
    apply never_fails_seq; apply never_fails_write. }
  apply never_fails_seq;
    [apply never_fails_for_each; intros; apply never_fails_write_ccflag|].
  apply never_fails_handle_copt_file.
Qed.

(** The object file of a source, relative to a directory that the
    source is relative to: it fails when the source is the directory
    itself. *)
Lemma obj_relative_to (src dir : PurePath) :
  name src <> "" -> suffix src <> ".o" ->
  is_relative_to src dir = true ->
  relative_to (mkPath (root src)
                 (removelast (names src) ++ [(stem src ++ ".o")%string])%list)
              dir
  = if path_eqb src dir then Fail (Uncaught ValueError)
    else Ok (mkPath Relative
               (removelast (skipn (List.length (names dir)) (names src))
                  ++ [(stem src ++ ".o")%string])%list).
Proof.
  intros Hn Hs Hr.
  destruct (is_relative_to_true _ _ Hr) as (_ & Hroot & Hnames).
  destruct (path_eqb src dir) eqn:E.
  - apply path_eqb_eq in E. subst dir.
    apply is_relative_to_false. unfold is_relative_to, relative_to.
    cbn [root names]. rewrite (names_snoc_name src Hn) at 1.
    rewrite names_prefix_snoc.
    destruct (String.eqb_spec (name src) (stem src ++ ".o")) as [E|_];
      [|now rewrite andb_false_r].
    exfalso. rewrite (name_stem src) in E. now apply append_inj_l in E.
  - apply path_eqb_neq in E.
    set (rest := skipn (List.length (names dir)) (names src)) in *.
    assert (Hrest : rest <> []).
    { intros R. apply E. rewrite R, app_nil_r in Hnames.
      destruct src as [a l], dir as [b m]. cbn in *. now subst. }
    assert (Hobj : (removelast (names src) ++ [(stem src ++ ".o")%string])%list
                   = (names dir
                        ++ (removelast rest ++ [(stem src ++ ".o")%string]))%list).
    { rewrite Hnames at 1. rewrite removelast_app by exact Hrest.
      now rewrite <- app_assoc. }
    unfold relative_to. cbn [root names].
    rewrite Hobj, names_prefix_app, skipn_app_length, Hroot.
    replace (anchor_eqb (root dir) (root dir)) with true
      by (symmetry; now apply anchor_eqb_eq).
    reflexivity.
Qed.

Lemma compilable_name (src : PurePath) :
  existsb (String.eqb (lower (suffix src))) _SOURCE_SUFFIXES = true ->
  name src <> "" /\ suffix src <> ".o".
Proof.
  intros Hc. split.
  - apply suffix_nonempty_name. intros E. rewrite E in Hc. discriminate Hc.
  - intros E. rewrite E in Hc. discriminate Hc.
Qed.

Lemma kbuild_src_accepted (package out src : PurePath) :
  suffix out = ".ko" -> accepted out src = true ->
  never_fails (kbuild_src package out src).
Proof.
  intros Hko Ha text. unfold accepted in Ha.
  destruct (contains ".h" (lower (suffix src))) eqn:Eh.
  { exists text. now apply kbuild_src_skip. }
  cbn [orb] in Ha. apply andb_true_iff in Ha as [Hc Ha].
  destruct (compilable_name _ Hc) as [Hn Ho].
  pose proof (with_suffix_ok src ".ko" eq_refl eq_refl Hn) as Eko.
  rewrite Eko in Ha.
  destruct (path_eqb (mkPath (root src)
                        (removelast (names src) ++ [(stem src ++ ".ko")%string])%list)
                     out) eqn:Ens.
  - unfold kbuild_src. rewrite Eh, Hc. cbn [negb].
    unfold bind, lift. rewrite Eko, Ens. unfold write. now eexists.
  - cbn [orb] in Ha. unfold resides_under in Ha.
    apply andb_true_iff in Ha as [Hr Hne]. apply negb_true_iff in Hne.
    assert (Hnk : with_suffix src ".ko" <> Ok out).
    { rewrite Eko. intros E. inversion E as [E']. rewrite E' in Ens.
      now rewrite path_eqb_refl in Ens. }
    rewrite (proj2 (kbuild_src_compilable package out src text Hc Hnk)).
    rewrite Hr. cbn [negb]. unfold bind, lift.
    rewrite (obj_relative_to _ _ Hn Ho Hr), Hne.
    assert (Hon : name out <> "").
    { apply suffix_nonempty_name. rewrite Hko. discriminate. }
    rewrite (with_suffix_ok out "" eq_refl eq_refl Hon). unfold write.
    now eexists.
Qed.

Lemma kbuild_src_refused (package out src : PurePath) :
  accepted out src = false ->
  forall text, exists f, kbuild_src package out src text = (text, Fail f).
Proof.
  intros Ha text. unfold accepted in Ha.
  apply orb_false_iff in Ha as [Eh Ha].
  destruct (existsb (String.eqb (lower (suffix src))) _SOURCE_SUFFIXES) eqn:Hc.
  2:{ eexists. now apply kbuild_src_invalid. }
  cbn [andb] in Ha. apply orb_false_iff in Ha as [Ens Hru].
  destruct (compilable_name _ Hc) as [Hn Ho].
  pose proof (with_suffix_ok src ".ko" eq_refl eq_refl Hn) as Eko.
  rewrite Eko in Ens.
  assert (Hnk : with_suffix src ".ko" <> Ok out).
  { rewrite Eko. intros E. inversion E as [E']. rewrite E' in Ens.
    now rewrite path_eqb_refl in Ens. }
  rewrite (proj2 (kbuild_src_compilable package out src text Hc Hnk)).
  unfold resides_under in Hru.
  destruct (is_relative_to src (parent out)) eqn:Hr; cbn [negb].
  - cbn [andb] in Hru. apply negb_false_iff in Hru.
    unfold bind, lift. rewrite (obj_relative_to _ _ Hn Ho Hr), Hru.
    now eexists.
  - now eexists.
Qed.

Lemma forallb_false_In {A : Type} (f : A -> bool) (l : list A) :
  forallb f l = false -> exists x, In x l /\ f x = false.
Proof.
  induction l as [|x l IH]; cbn [forallb]; [discriminate|].
  destruct (f x) eqn:E.
  - intros H. destruct (IH H) as (y & Hy & Fy). exists y. split; [now right | exact Fy].
  - intros _. exists x. split; [now left | exact E].
Qed.

(** The runs that reach their end. *)
Lemma run_ends_normally_iff :
  forall (om out : PurePath) (srcs incs symvers : list PurePath)
         (package : PurePath) (defs : list string)
         (copt_file : option (list copt)) (fs : FS),
    snd (run (gen_ddk_makefile om out srcs incs symvers package defs copt_file)
             fs) = None
    <-> parts package <> []
        /\ suffix out = ".ko"
        /\ forallb (accepted out) (rel_srcs_of package srcs) = true.
Proof.
  intros om out srcs incs symvers package defs copt_file fs. split.
  - intros Hrun.
    destruct (parts package) as [|x l] eqn:Ep.
    { exfalso. unfold run in Hrun.
      rewrite gen_ddk_makefile_run, gen_makefile_run, Ep in Hrun.
      discriminate Hrun. }
    split; [discriminate|].
    destruct (String.eqb_spec (suffix out) ".ko") as [Hko|Hko].
    2:{ exfalso. apply String.eqb_neq in Hko. unfold run in Hrun.
        rewrite gen_ddk_makefile_run, gen_makefile_run, Ep in Hrun.
        change (List.length (x :: l)) with (S (List.length l)) in Hrun.
        rewrite makefile_rel_root_segments, Hko in Hrun. discriminate Hrun. }
    split; [exact Hko|].
    destruct (forallb (accepted out) (rel_srcs_of package srcs)) eqn:Ef;
      [reflexivity|].
    exfalso. destruct (forallb_false_In _ _ Ef) as (rel & Hin & Hrel).
    destruct (run_stops_on_source om out rel srcs incs symvers package defs
                copt_file fs Hin (kbuild_src_refused package out rel Hrel))
      as (fs' & f & Hf & _).
    rewrite Hf in Hrun. discriminate Hrun.
  - intros (Hp & Hko & Hf).
    destruct (parts_nonempty_length _ Hp) as [d Hd].
    assert (Hon : name out <> "").
    { apply suffix_nonempty_name. rewrite Hko. discriminate. }
    unfold run.
    rewrite gen_ddk_makefile_run, gen_makefile_run, Hd,
      makefile_rel_root_segments, Hko.
    replace (negb (String.eqb ".ko" ".ko")) with false by reflexivity.
    cbv zeta.
    assert (Hk : exists text,
               kbuild_body out (rel_srcs_of package srcs) incs package defs
                           copt_file "" = (text, Ok tt)).
    { unfold kbuild_body. unfold bind at 1, lift at 1.
      rewrite (with_suffix_ok out ".o" eq_refl eq_refl Hon).
      repeat (apply never_fails_seq; [apply never_fails_write|]).
      apply never_fails_seq; [|apply never_fails_after_sources].
      apply never_fails_for_each. intros rel Hin.
      apply kbuild_src_accepted; [exact Hko|].
      rewrite forallb_forall in Hf. now apply Hf. }
    destruct Hk as [text ->].
    destruct (negb (path_eqb _ _)); reflexivity.
Qed.

(** X4.  For arguments that keep the three files out of each other's
    way ([tree_safe]) and an options file, when there is one, that is
    an array of well-formed records, a run in which the file system
    does what it is asked ends with exit status 0 exactly when the
    package has at least one segment, the module output ends in [.ko],
    and every source under the package is accepted by the loop: a
    header (or a name without suffix), or a compilable source that is
    the module's own or lies below the directory of the module.  Every
    other such run stops early with a status that is not 0.  What the
    include directories, the defines and the records hold has no part
    in it. *)
Theorem X4_success_criterion :
  forall (om out : PurePath) (srcs incs symvers : list PurePath)
         (package : PurePath) (defs : list string)
         (copt_file : option (list copt)) (fs : FS),
    tree_safe om out = true ->
    (exit_status
       (snd (run (gen_ddk_makefile om out srcs incs symvers package defs
                                   copt_file) fs)) = 0
     <-> parts package <> []
         /\ suffix out = ".ko"
         /\ forallb (accepted out) (rel_srcs_of package srcs) = true).
Proof.
  intros om out srcs incs symvers package defs copt_file fs _.
  rewrite <- (run_ends_normally_iff om out srcs incs symvers package defs
                copt_file fs).
  unfold run.
  destruct (gen_ddk_makefile om out srcs incs symvers package defs copt_file fs)
    as [fs' [[]|f]] eqn:E; cbn [snd failure_of].
  - split; reflexivity.
  - split; [|discriminate].
    intros H. exfalso. exact (fatal_gen_ddk_makefile _ _ _ _ _ _ _ _ _ _ _ E H).
Qed.

End Success.

(** ** Blocks of writes only append *)

Section Appends.
Import Str Pathlib GenMakefiles.

Lemma appends_start (m : M string unit) :
  appends m -> m "" = (written m, ending m).
Proof. intros H. exact (H ""). Qed.

Lemma appends_ret : appends (ret tt).
Proof. intros text. unfold ret, written, ending. cbn. now rewrite append_nil_r. Qed.

Lemma appends_die (msg : string) : appends (die msg).
Proof. intros text. unfold die, written, ending. cbn. now rewrite append_nil_r. Qed.

Lemma appends_write (w : string) : appends (write w).
Proof. intros text. reflexivity. Qed.

Lemma appends_seq (m k : M string unit) :
  appends m -> appends k -> appends (m ;; k).
Proof.
  intros Hm Hk text.
  change (written (m ;; k)) with (fst (bind m (fun _ => k) "")).
  change (ending (m ;; k)) with (snd (bind m (fun _ => k) "")).
  unfold bind. rewrite (Hm text), (appends_start m Hm).
  destruct (ending m) as [[]|f]; [|reflexivity].
  rewrite (Hk (text ++ written m)), (Hk (written m)). cbn [fst snd].
  now rewrite append_assoc.
Qed.

Lemma appends_bind_lift {A : Type} (r : result A) (k : A -> M string unit) :
  (forall a, r = Ok a -> appends (k a)) -> appends (bind (lift r) k).
Proof.
  intros Hk text.
  change (written (bind (lift r) k)) with (fst (bind (lift r) k "")).
  change (ending (bind (lift r) k)) with (snd (bind (lift r) k "")).
  unfold bind, lift. destruct r as [a|f].
  - rewrite (Hk a eq_refl text), (appends_start _ (Hk a eq_refl)). reflexivity.
  - cbn [fst snd]. now rewrite append_nil_r.
Qed.

Lemma appends_for_each {A : Type} (l : list A) (body : A -> M string unit) :
  (forall x, appends (body x)) -> appends (for_each l body).
Proof.
  intros Hb. induction l as [|x l IH]; cbn [for_each].
  - apply appends_ret.
  - apply appends_seq; [apply Hb | exact IH].
Qed.

(** The loop body never touches what is already in the Kbuild file. *)
Lemma appends_kbuild_src (package out src : PurePath) :
  appends (kbuild_src package out src).
Proof.
  unfold kbuild_src.
  repeat match goal with
         | |- appends (if ?c then _ else _) => destruct c
         | |- appends (bind (lift _) _) => apply appends_bind_lift; intros ? _
         end;
    auto using appends_ret, appends_die, appends_write.
Qed.

Lemma for_each_accepted (package out : PurePath) (rels : list PurePath) :
  suffix out = ".ko" ->
  forallb (accepted out) rels = true ->
  forall text,
    for_each rels (kbuild_src package out) text
    = (text ++ cat (map (fun rel => written (kbuild_src package out rel)) rels),
       Ok tt).
Proof.
  intros Hko Ha. apply for_each_writes. intros rel Hin text.
  rewrite (appends_kbuild_src package out rel text). f_equal.
  rewrite forallb_forall in Ha.
  destruct (kbuild_src_accepted package out rel Hko (Ha rel Hin) "") as [s' E].
  unfold ending. now rewrite E.
Qed.

(** X5.  The lines of the sources are put together source by source:
    when the module output ends in [.ko] and every source of the list
    is accepted, the loop adds to the Kbuild file, after what is there,
    the lines of each source in the order of the list, a source listed
    twice twice; the lines of a source depend on no other source. *)
Theorem X5_source_lines_in_order :
  forall (package out : PurePath) (rels : list PurePath) (text : string),
    suffix out = ".ko" ->
    forallb (accepted out) rels = true ->
    for_each rels (kbuild_src package out) text
    = (text ++ cat (map (fun rel => written (kbuild_src package out rel)) rels),
       Ok tt).
Proof. intros package out rels text Hko Ha. now apply for_each_accepted. Qed.

End Appends.

(** ** The Kbuild files after a run *)

Section KbuildAfterRun.
Import Str Pathlib GenMakefiles.

Lemma kbuild_header_written (out package : PurePath) :
  suffix out = ".ko" ->
  path_single_line package = true -> path_single_line out = true ->
  with_suffix out ".o"
  = Ok (mkPath (root out)
          (removelast (names out) ++ [(stem out ++ ".o")%string])%list)
  /\ Textwrap.dedent
       ("            # Build " ++ str (joinpath package out) ++ nl ++
        "            obj-m += " ++ (stem out ++ ".o") ++ nl ++
        "            ")
     = "# Build " ++ str (joinpath package out) ++ nl ++
       "obj-m += " ++ stem out ++ ".o" ++ nl.
Proof.
  intros Hko Hp Ho.
  assert (Hon : name out <> "").
  { apply suffix_nonempty_name. rewrite Hko. discriminate. }
  split; [now apply with_suffix_ok|].
  rewrite kbuild_header_text;
    [ now rewrite !append_assoc
    | apply single_line_str; now apply path_single_line_joinpath
    | rewrite single_line_app, single_line_stem by exact Ho; reflexivity ].
Qed.

(** X6.  After a run that succeeds (package of at least one segment,
    output in [.ko], every source accepted; no line break in the
    arguments, which keep the three files out of each other's way, and
    well-formed records in the options file) the Kbuild file of the
    module is: the [# Build] comment
    and [obj-m += <stem>.o], a blank line, the lines of the accepted
    sources in order, a blank line, the comment and the flag line of
    each include directory, the [# local defines] section when there
    are defines, and the [# copts] section when there is an options
    file. *)
Theorem X6_kbuild_file_of_a_successful_run :
  forall (om out : PurePath) (srcs incs symvers : list PurePath)
         (package : PurePath) (defs : list string)
         (copt_file : option (list copt)) (fs : FS),
    tree_safe om out = true ->
    parts package <> [] ->
    suffix out = ".ko" ->
    forallb (accepted out) (rel_srcs_of package srcs) = true ->
    path_single_line package = true ->
    path_single_line out = true ->
    forallb path_single_line incs = true ->
    forallb single_line defs = true ->
    match copt_file with
    | Some records => forallb (fun d => single_line (expanded d)) records
    | None => true
    end = true ->
    fst (run (gen_ddk_makefile om out srcs incs symvers package defs copt_file)
             fs) (kbuild_of om out)
    = Some (("# Build " ++ str (joinpath package out) ++ nl ++
             "obj-m += " ++ stem out ++ ".o" ++ nl ++ nl ++
             cat (map (fun rel => written (kbuild_src package out rel))
                      (rel_srcs_of package srcs)))
            ++ nl
            ++ cat (map (fun inc =>
                           "# Include " ++ str inc ++ nl ++
                           "ccflags-y += "
                             ++ Shlex.quote
                                  ("-I$(srctree)/$(src)/"
                                     ++ str (kbuild_rel_root package out)
                                     ++ "/" ++ str inc) ++ nl) incs)
            ++ match defs with
               | [] => ""
               | _ :: _ => nl ++ "# local defines" ++ nl
               end
            ++ cat (map (fun d => "ccflags-y += " ++ Shlex.quote ("-D" ++ d) ++ nl)
                        defs)
            ++ match copt_file with
               | None => ""
               | Some records =>
                   nl ++ "# copts" ++ nl ++
                   cat (map (fun d =>
                               "ccflags-y += "
                                 ++ Shlex.quote
                                      (copt_value (kbuild_rel_root package out) d)
                                 ++ nl) records)
               end).
Proof.
  intros om out srcs incs symvers package defs copt_file fs
         _ Hp Hko Ha Hpk Ho Hi Hd Hc.
  destruct (parts_nonempty_length _ Hp) as [d Hd'].
  unfold run.
  rewrite gen_ddk_makefile_run, gen_makefile_run, Hd',
    makefile_rel_root_segments, Hko.
  replace (negb (String.eqb ".ko" ".ko")) with false by reflexivity.
  cbv zeta.
  rewrite (kbuild_body_text out (rel_srcs_of package srcs) incs package defs
             copt_file _ Hko Hpk Ho Hi Hd Hc
             (for_each_accepted package out _ Hko Ha _)).
  rewrite !append_assoc.
  fold (kbuild_of om out).
  destruct (negb (path_eqb (joinpath om (parse "Kbuild")) (kbuild_of om out)))
    eqn:Et; cbn [fst].
  - unfold with_open, write. cbn [fst].
    apply negb_true_iff, path_eqb_neq in Et.
    rewrite write_file_other by congruence. apply write_file_same.
  - apply write_file_same.
Qed.

(** X7.  For arguments that keep the three files out of each other's
    way: when the loop stops on a source that it refuses, after
    sources that it accepts, the run ends with a failure and the Kbuild
    file of the module is left with the header, the blank line and the
    lines of the sources before the refused one: nothing for the
    refused source, for the sources after it, for the include
    directories, the defines or the options. *)
Theorem X7_kbuild_file_of_a_stopped_run :
  forall (om out bad : PurePath) (srcs rels1 rels2 incs symvers : list PurePath)
         (package : PurePath) (defs : list string)
         (copt_file : option (list copt)) (fs : FS),
    tree_safe om out = true ->
    parts package <> [] ->
    suffix out = ".ko" ->
    rel_srcs_of package srcs = (rels1 ++ bad :: rels2)%list ->
    forallb (accepted out) rels1 = true ->
    accepted out bad = false ->
    path_single_line package = true ->
    path_single_line out = true ->
    exists f,
      snd (run (gen_ddk_makefile om out srcs incs symvers package defs
                                 copt_file) fs)
      = Some f
      /\ fst (run (gen_ddk_makefile om out srcs incs symvers package defs
                                    copt_file) fs) (kbuild_of om out)
         = Some ("# Build " ++ str (joinpath package out) ++ nl ++
                 "obj-m += " ++ stem out ++ ".o" ++ nl ++ nl ++
                 cat (map (fun rel => written (kbuild_src package out rel))
                          rels1)).
Proof.
  intros om out bad srcs rels1 rels2 incs symvers package defs copt_file fs
         _ Hp Hko Hrels Ha Hbad Hpk Ho.
  destruct (parts_nonempty_length _ Hp) as [d Hd'].
  destruct (kbuild_header_written out package Hko Hpk Ho) as [Ews Ehd].
  set (header := "# Build " ++ str (joinpath package out) ++ nl ++
                 "obj-m += " ++ stem out ++ ".o" ++ nl ++ nl).
  set (text1 := header ++ cat (map (fun rel => written (kbuild_src package out rel))
                                   rels1)).
  destruct (kbuild_src_refused package out bad Hbad text1) as [f Hf].
  assert (Hk : kbuild_body out (rel_srcs_of package srcs) incs package defs
                           copt_file "" = (text1, Fail f)).
  { unfold kbuild_body. unfold bind at 1, lift at 1. rewrite Ews.
    unfold bind at 1, write at 1. unfold bind at 1, write at 1.
    rewrite name_snoc, Ehd. unfold bind at 1.
    match goal with
    | |- context [for_each _ ?b ?t] =>
        replace t with header
          by (unfold header; rewrite !append_assoc; reflexivity)
    end.
    rewrite Hrels.
    now rewrite (for_each_stop _ bad rels1 rels2 header text1 text1 f
                   (for_each_accepted package out rels1 Hko Ha header) Hf). }
  exists f. unfold run.
  rewrite gen_ddk_makefile_run, gen_makefile_run, Hd',
    makefile_rel_root_segments, Hko.
  replace (negb (String.eqb ".ko" ".ko")) with false by reflexivity.
  cbv zeta. rewrite Hk. cbn [fst snd failure_of]. split; [reflexivity|].
  fold (kbuild_of om out). rewrite write_file_same.
  unfold text1, header. now rewrite !append_assoc.
Qed.

End KbuildAfterRun.

(** ** The top-level Kbuild file (lines 154-161) *)

Section TopKbuild.
Import Str Pathlib GenMakefiles.

Lemma top_kbuild_text (s1 s2 : string) :
  single_line s1 = true -> single_line s2 = true ->
  Textwrap.dedent
    ("                # Build " ++ s1 ++ nl ++
     "                obj-y += " ++ s2 ++ "/" ++ nl ++
     "                ")
  = "# Build " ++ s1 ++ nl ++ "obj-y += " ++ s2 ++ "/" ++ nl.
Proof.
  intros H1 H2.
  by_template
    (dedent_two "                " "                "
       ("# Build " ++ s1) ("obj-y += " ++ s2 ++ "/")
       eq_refl eq_refl eq_refl
       ltac:(rewrite single_line_app, H1; reflexivity)
       eq_refl
       ltac:(rewrite !single_line_app, H2; reflexivity)).
Qed.

(** For a relative module output the two Kbuild paths are the same
    exactly when the module output has no directory. *)
Lemma top_kbuild_is_kbuild (om out : PurePath) :
  root out = Relative ->
  (top_kbuild_of om = kbuild_of om out <-> names (parent out) = []).
Proof.
  intros Hr. unfold top_kbuild_of, kbuild_of.
  rewrite !joinpath_file by reflexivity.
  unfold joinpath at 1 2. cbn [root names parent]. rewrite Hr. cbn [root names].
  split.
  - intros H. apply (f_equal names) in H. cbn [names] in H.
    apply app_inj_tail in H as [H _].
    rewrite <- (app_nil_r (names om)) in H at 1.
    apply app_inv_head in H. now symmetry.
  - intros ->. now rewrite app_nil_r.
Qed.

Lemma tree_safe_relative (om out : PurePath) :
  tree_safe om out = true -> root out = Relative.
Proof.
  unfold tree_safe. intros H.
  apply andb_true_iff in H as [H _]. apply andb_true_iff in H as [H _].
  apply andb_true_iff in H as [H _]. now apply anchor_eqb_eq in H.
Qed.

(** X8.  For arguments that keep the three files out of each other's
    way (a relative module output of ordinary names whose directory
    does not begin with [Makefile] or [Kbuild]): a module output
    without directory has one Kbuild file, the top-level one; with a
    directory the top-level Kbuild file is a second file, which a
    successful run writes as the [# Build] comment and
    [obj-y += <directory>/], and which a run that stops does not
    touch. *)
Theorem X8_top_level_kbuild :
  forall (om out : PurePath) (srcs incs symvers : list PurePath)
         (package : PurePath) (defs : list string)
         (copt_file : option (list copt)) (fs : FS),
    tree_safe om out = true ->
    path_single_line package = true ->
    path_single_line out = true ->
    (names (parent out) = [] -> top_kbuild_of om = kbuild_of om out)
    /\ (names (parent out) <> [] ->
        top_kbuild_of om <> kbuild_of om out
        /\ fst (run (gen_ddk_makefile om out srcs incs symvers package defs
                                      copt_file) fs) (top_kbuild_of om)
           = match snd (run (gen_ddk_makefile om out srcs incs symvers package
                                              defs copt_file) fs) with
             | None =>
                 Some ("# Build " ++ str (joinpath package out) ++ nl ++
                       "obj-y += " ++ str (parent out) ++ "/" ++ nl)
             | Some _ => fs (top_kbuild_of om)
             end).
Proof.
  intros om out srcs incs symvers package defs copt_file fs Hsafe Hp Ho.
  pose proof (tree_safe_relative om out Hsafe) as Hr.
  pose proof (top_kbuild_is_kbuild om out Hr) as Hiff.
  split; [apply Hiff|].
  intros Hn.
  assert (Hne : top_kbuild_of om <> kbuild_of om out)
    by (intros E; apply Hn; now apply Hiff).
  split; [exact Hne|].
  assert (Hmk : top_kbuild_of om <> makefile_of om)
    by (intros E; symmetry in E; revert E; apply makefile_not_kbuild).
  unfold run.
  rewrite gen_ddk_makefile_run, gen_makefile_run.
  fold (makefile_of om) (kbuild_of om out) (top_kbuild_of om).
  destruct (OsPath.join _) as [rel_root|f]; [|reflexivity].
  destruct (negb (String.eqb (suffix out) ".ko")); cbn [fst snd failure_of].
  { now apply write_file_other. }
  cbv zeta.
  destruct (kbuild_body _ _ _ _ _ _ "") as [text [[]|f]];
    cbn [fst snd failure_of].
  - apply path_eqb_neq in Hne. rewrite Hne. cbn [negb].
    unfold with_open, write. cbn [fst snd failure_of].
    rewrite write_file_same. f_equal. cbn [append].
    apply top_kbuild_text.
    + apply single_line_str. now apply path_single_line_joinpath.
    + apply single_line_str. now apply path_single_line_parent.
  - rewrite !write_file_other by assumption. reflexivity.
Qed.

End TopKbuild.

(** ** Sources outside the package and the object path of a source *)

Section Sources.
Import Str Pathlib GenMakefiles.

(** X9.  A declared source that is not under the package is no part of
    the module: the run, every file and the exit status, is the run
    without that source, whatever its suffix. *)
Theorem X9_source_outside_package_ignored :
  forall (om out src : PurePath) (l1 l2 incs symvers : list PurePath)
         (package : PurePath) (defs : list string)
         (copt_file : option (list copt)) (fs : FS),
    is_relative_to src package = false ->
    run (gen_ddk_makefile om out (l1 ++ src :: l2)%list incs symvers package
                          defs copt_file) fs
    = run (gen_ddk_makefile om out (l1 ++ l2)%list incs symvers package defs
                            copt_file) fs.
Proof.
  intros om out src l1 l2 incs symvers package defs copt_file fs Hr.
  unfold run. rewrite gen_ddk_makefile_skip; [reflexivity|].
  intros rel E. rewrite (is_relative_to_false _ _ Hr) in E. discriminate E.
Qed.

(** X10.  The lines of a compilable source that lies in the directory
    of the module output, or in a directory below it, and is not the
    module's own: the comment names the source as it was declared, and
    the object is the path from the directory of the module to the
    source, with [.o] in place of the suffix, so that the directories
    between the two are kept. *)
Theorem X10_object_path_keeps_subdirectories :
  forall (package out src rel : PurePath) (dirs : list string) (file : string)
         (text : string),
    relative_to src package = Ok rel ->
    root out = Relative ->
    names rel = (names (parent out) ++ dirs ++ [file])%list ->
    existsb (String.eqb (lower (suffix rel))) _SOURCE_SUFFIXES = true ->
    with_suffix rel ".ko" <> Ok out ->
    suffix out = ".ko" ->
    path_single_line out = true ->
    path_single_line src = true ->
    kbuild_src package out rel text
    = (text ++ "# Source: " ++ str src ++ nl ++
               stem out ++ "-y += " ++ join "/" (dirs ++ [stem rel ++ ".o"])
               ++ nl,
       Ok tt).
Proof.
  intros package out src rel dirs file text Erel Hroot Hnames Hc Hnk Hko Ho Hs.
  destruct (compilable_name _ Hc) as [Hn Hno].
  assert (Hrr : root rel = Relative).
  { unfold relative_to in Erel. destruct (_ && _); [|discriminate].
    now inversion Erel. }
  assert (Hrl : path_single_line rel = true)
    by (eapply path_single_line_relative_to; eassumption).
  assert (Hr : is_relative_to rel (parent out) = true).
  { unfold is_relative_to, relative_to. cbn [root parent].
    rewrite Hrr, Hroot, Hnames, names_prefix_app. reflexivity. }
  assert (Hne : path_eqb rel (parent out) = false).
  { apply path_eqb_neq. intros E. apply (f_equal names) in E.
    rewrite Hnames in E. rewrite <- (app_nil_r (names (parent out))) in E at 2.
    apply app_inv_head in E. symmetry in E. now apply app_cons_not_nil in E. }
  assert (Hon : name out <> "").
  { apply suffix_nonempty_name. rewrite Hko. discriminate. }
  rewrite (proj2 (kbuild_src_compilable package out rel text Hc Hnk)).
  rewrite Hr. cbn [negb]. unfold bind, lift.
  rewrite (obj_relative_to _ _ Hn Hno Hr), Hne.
  rewrite (with_suffix_ok out "" eq_refl eq_refl Hon). unfold write.
  rewrite name_snoc, append_nil_r, (joinpath_relative_to _ _ _ Erel).
  rewrite Hnames, skipn_app_length, removelast_last.
  rewrite source_lines_text.
  - rewrite (str_named (mkPath Relative (dirs ++ [(stem rel ++ ".o")%string])%list))
      by (cbn [names]; intros E; symmetry in E; now apply app_cons_not_nil in E).
    reflexivity.
  - now apply single_line_str.
  - now apply single_line_stem.
  - apply single_line_str. unfold path_single_line. cbn [names].
    unfold path_single_line in Hrl. rewrite Hnames, !forallb_app in Hrl.
    apply andb_true_iff in Hrl as [_ Hrl].
    apply andb_true_iff in Hrl as [Hd _].
    rewrite forallb_app, Hd. cbn [forallb].
    rewrite single_line_app, single_line_stem by (eapply path_single_line_relative_to; eassumption).
    reflexivity.
Qed.

End Sources.

(** ** The segments of the relative roots *)

Section RelativeRootSegments.
Import Str Pathlib GenMakefiles.

Lemma split_dotdots (d : nat) :
  split "/"%char (join "/" (repeat ".." (S d))) = repeat ".." (S d).
Proof.
  induction d as [|d IH]; [reflexivity|].
  change (repeat ".." (S (S d))) with (".." :: repeat ".." (S d)).
  change (join "/" (".." :: repeat ".." (S d)))
    with (String "."%char (String "."%char
            (String "/"%char (join "/" (repeat ".." (S d)))))).
  cbn [split Ascii.eqb Bool.eqb andb].
  rewrite IH. reflexivity.
Qed.

(** X11.  Away from the empty package both relative roots are made of
    double dots only: the one of the Makefile has one for each part of
    the package, separated by slashes, and the one of the Kbuild file
    has one for each part of the package joined with the directory of
    the module output, at every depth. *)
Theorem X11_relative_roots_are_double_dots :
  forall (package out : PurePath),
    (parts package <> [] ->
     exists rel_root,
       OsPath.join (repeat ".." (List.length (parts package))) = Ok rel_root
       /\ split "/"%char rel_root = repeat ".." (List.length (parts package)))
    /\ parts (kbuild_rel_root package out)
       = repeat ".." (List.length (parts (joinpath package (parent out)))).
Proof.
  intros package out. split.
  - intros Hp. destruct (parts_nonempty_length _ Hp) as [d Hd].
    rewrite Hd, makefile_rel_root_segments. eexists. split; [reflexivity|].
    apply split_dotdots.
  - now rewrite kbuild_rel_root_segments.
Qed.

End RelativeRootSegments.

(** ** The further properties at concrete inputs *)

Section MoreWitnesses.
Import Str Pathlib GenMakefiles.

Lemma X1_only_three_files_written_witness :
  parse "out/notes.txt" <> makefile_of (parse "out")
  /\ parse "out/notes.txt" <> kbuild_of (parse "out") (parse "c/mod.ko")
  /\ parse "out/notes.txt" <> top_kbuild_of (parse "out")
  /\ fst (run (gen_ddk_makefile (parse "out") (parse "c/mod.ko")
                 [parse "a/b/c/mod.c"] [parse "inc"] [] (parse "a/b") ["FOO=1"]
                 None)
              (write_file empty_fs (parse "out/notes.txt") "kept"))
         (parse "out/notes.txt")
     = Some "kept".
Proof.
  assert (H1 : parse "out/notes.txt" <> makefile_of (parse "out"))
    by (intros H; vm_compute in H; discriminate H).
  assert (H2 : parse "out/notes.txt" <> kbuild_of (parse "out") (parse "c/mod.ko"))
    by (intros H; vm_compute in H; discriminate H).
  assert (H3 : parse "out/notes.txt" <> top_kbuild_of (parse "out"))
    by (intros H; vm_compute in H; discriminate H).
  split; [exact H1|]. split; [exact H2|]. split; [exact H3|].
  rewrite (X1_only_three_files_written (parse "out") (parse "c/mod.ko")
             [parse "a/b/c/mod.c"] [parse "inc"] [] (parse "a/b") ["FOO=1"] None
             (write_file empty_fs (parse "out/notes.txt") "kept")
             (parse "out/notes.txt") H1 H2 H3).
  reflexivity.
Defined.

Lemma X3_makefile_after_every_run_witness :
  parts (parse "a/b") <> []
  /\ fst (run (gen_ddk_makefile (parse "out") (parse "c/mod.bad")
                 [parse "a/b/c/mod.txt"] [] [parse "dep/Module.symvers"]
                 (parse "a/b") [] None) empty_fs)
         (makefile_of (parse "out"))
     = Some ("# Include symbol: dep/Module.symvers" ++ nl ++
             "EXTRA_SYMBOLS += $(OUT_DIR)/$(M)/../../dep/Module.symvers" ++ nl ++
             "modules modules_install clean:" ++ nl ++
             tab ++ "$(MAKE) -C $(KERNEL_SRC) M=$(M) $(KBUILD_OPTIONS) KBUILD_EXTRA_SYMBOLS="
                 ++ dq ++ "$(EXTRA_SYMBOLS)" ++ dq ++ " $(@)" ++ nl).
Proof.
  assert (H : parts (parse "a/b") <> []) by discriminate.
  split; [exact H|].
  rewrite (X3_makefile_after_every_run (parse "out") (parse "c/mod.bad")
             [parse "a/b/c/mod.txt"] [] [parse "dep/Module.symvers"]
             (parse "a/b") [] None empty_fs H).
  reflexivity.
Defined.

Lemma X4_success_criterion_witness :
  tree_safe (parse "out") (parse "c/mod.ko") = true
  /\ exit_status
       (snd (run (gen_ddk_makefile (parse "out") (parse "c/mod.ko")
                    [parse "a/b/c/mod.c"; parse "a/b/c/helper.c";
                     parse "a/b/c/helper.h"; parse "x/notes.txt"]
                    [parse "inc"] [] (parse "a/b") ["FOO=1"]
                    (Some [mkCopt "opt/x" true])) empty_fs)) = 0
  /\ exit_status
       (snd (run (gen_ddk_makefile (parse "out") (parse "c/mod.ko")
                    [parse "a/b/c/mod.c"; parse "a/b/c/notes.txt"]
                    [parse "inc"] [] (parse "a/b") ["FOO=1"]
                    (Some [mkCopt "opt/x" true])) empty_fs)) <> 0.
Proof.
  assert (H : tree_safe (parse "out") (parse "c/mod.ko") = true) by reflexivity.
  split; [exact H|]. split.
  - apply (X4_success_criterion (parse "out") (parse "c/mod.ko")
             [parse "a/b/c/mod.c"; parse "a/b/c/helper.c";
              parse "a/b/c/helper.h"; parse "x/notes.txt"]
             [parse "inc"] [] (parse "a/b") ["FOO=1"]
             (Some [mkCopt "opt/x" true]) empty_fs H).
    split; [discriminate|]. split; reflexivity.
  - intros E.
    apply (X4_success_criterion (parse "out") (parse "c/mod.ko")
             [parse "a/b/c/mod.c"; parse "a/b/c/notes.txt"]
             [parse "inc"] [] (parse "a/b") ["FOO=1"]
             (Some [mkCopt "opt/x" true]) empty_fs H) in E.
    destruct E as (_ & _ & E). discriminate E.
Defined.

Lemma X5_source_lines_in_order_witness :
  suffix (parse "c/mod.ko") = ".ko"
  /\ forallb (accepted (parse "c/mod.ko"))
             [parse "c/helper.c"; parse "c/mod.c"; parse "c/helper.c"] = true
  /\ for_each [parse "c/helper.c"; parse "c/mod.c"; parse "c/helper.c"]
              (kbuild_src (parse "a/b") (parse "c/mod.ko")) "top"
     = ("top" ++
        "# Source: a/b/c/helper.c" ++ nl ++ "mod-y += helper.o" ++ nl ++
        "# The module c/mod.ko has a source file c/mod.c" ++ nl ++
        "# Source: a/b/c/helper.c" ++ nl ++ "mod-y += helper.o" ++ nl,
        Ok tt).
Proof.
  assert (H1 : suffix (parse "c/mod.ko") = ".ko") by reflexivity.
  assert (H2 : forallb (accepted (parse "c/mod.ko"))
                 [parse "c/helper.c"; parse "c/mod.c"; parse "c/helper.c"] = true)
    by reflexivity.
  split; [exact H1|]. split; [exact H2|].
  rewrite (X5_source_lines_in_order (parse "a/b") (parse "c/mod.ko")
             [parse "c/helper.c"; parse "c/mod.c"; parse "c/helper.c"] "top"
             H1 H2).
  reflexivity.
Defined.

Lemma X6_kbuild_file_of_a_successful_run_witness :
  tree_safe (parse "out") (parse "c/mod.ko") = true
  /\ parts (parse "a/b") <> []
  /\ suffix (parse "c/mod.ko") = ".ko"
  /\ forallb (accepted (parse "c/mod.ko"))
             (rel_srcs_of (parse "a/b")
                [parse "a/b/c/mod.c"; parse "a/b/c/sub/helper.S";
                 parse "a/b/c/helper.h"; parse "x/y.c"]) = true
  /\ fst (run (gen_ddk_makefile (parse "out") (parse "c/mod.ko")
                 [parse "a/b/c/mod.c"; parse "a/b/c/sub/helper.S";
                  parse "a/b/c/helper.h"; parse "x/y.c"]
                 [parse "inc"] [] (parse "a/b") ["FOO=1"; "BAR=a b"]
                 (Some [mkCopt "opt/x" true; mkCopt "-Wall" false]))
              empty_fs)
         (kbuild_of (parse "out") (parse "c/mod.ko"))
     = Some ("# Build a/b/c/mod.ko" ++ nl ++
             "obj-m += mod.o" ++ nl ++
             nl ++
             "# The module c/mod.ko has a source file c/mod.c" ++ nl ++
             "# Source: a/b/c/sub/helper.S" ++ nl ++
             "mod-y += sub/helper.o" ++ nl ++
             nl ++
             "# Include inc" ++ nl ++
             "ccflags-y += '-I$(srctree)/$(src)/../../../inc'" ++ nl ++
             nl ++
             "# local defines" ++ nl ++
             "ccflags-y += -DFOO=1" ++ nl ++
             "ccflags-y += '-DBAR=a b'" ++ nl ++
             nl ++
             "# copts" ++ nl ++
             "ccflags-y += ../../../opt/x" ++ nl ++
             "ccflags-y += -Wall" ++ nl).
Proof.
  assert (H1 : parts (parse "a/b") <> []) by discriminate.
  assert (H2 : suffix (parse "c/mod.ko") = ".ko") by reflexivity.
  assert (H3 : forallb (accepted (parse "c/mod.ko"))
                 (rel_srcs_of (parse "a/b")
                    [parse "a/b/c/mod.c"; parse "a/b/c/sub/helper.S";
                     parse "a/b/c/helper.h"; parse "x/y.c"]) = true)
    by reflexivity.
  split; [reflexivity|].
  split; [exact H1|]. split; [exact H2|]. split; [exact H3|].
  rewrite (X6_kbuild_file_of_a_successful_run (parse "out") (parse "c/mod.ko")
             [parse "a/b/c/mod.c"; parse "a/b/c/sub/helper.S";
              parse "a/b/c/helper.h"; parse "x/y.c"]
             [parse "inc"] [] (parse "a/b") ["FOO=1"; "BAR=a b"]
             (Some [mkCopt "opt/x" true; mkCopt "-Wall" false]) empty_fs
             eq_refl H1 H2 H3 eq_refl eq_refl eq_refl eq_refl eq_refl).
  reflexivity.
Defined.

Lemma X7_kbuild_file_of_a_stopped_run_witness :
  tree_safe (parse "out") (parse "c/mod.ko") = true
  /\ parts (parse "a/b") <> []
  /\ suffix (parse "c/mod.ko") = ".ko"
  /\ rel_srcs_of (parse "a/b")
       [parse "a/b/c/mod.c"; parse "a/b/c/notes.txt"; parse "a/b/c/helper.c"]
     = ([parse "c/mod.c"] ++ parse "c/notes.txt" :: [parse "c/helper.c"])%list
  /\ forallb (accepted (parse "c/mod.ko")) [parse "c/mod.c"] = true
  /\ accepted (parse "c/mod.ko") (parse "c/notes.txt") = false
  /\ exists f,
       snd (run (gen_ddk_makefile (parse "out") (parse "c/mod.ko")
                   [parse "a/b/c/mod.c"; parse "a/b/c/notes.txt";
                    parse "a/b/c/helper.c"]
                   [parse "inc"] [] (parse "a/b") ["FOO=1"] None) empty_fs)
       = Some f
       /\ fst (run (gen_ddk_makefile (parse "out") (parse "c/mod.ko")
                      [parse "a/b/c/mod.c"; parse "a/b/c/notes.txt";
                       parse "a/b/c/helper.c"]
                      [parse "inc"] [] (parse "a/b") ["FOO=1"] None) empty_fs)
              (kbuild_of (parse "out") (parse "c/mod.ko"))
          = Some ("# Build " ++ str (joinpath (parse "a/b") (parse "c/mod.ko"))
                    ++ nl ++
                  "obj-m += " ++ stem (parse "c/mod.ko") ++ ".o" ++ nl ++ nl ++
                  cat (map (fun rel =>
                              written (kbuild_src (parse "a/b") (parse "c/mod.ko")
                                                  rel))
                           [parse "c/mod.c"])).
Proof.
  assert (H1 : parts (parse "a/b") <> []) by discriminate.
  split; [reflexivity|].
  split; [exact H1|]. split; [reflexivity|]. split; [reflexivity|].
  split; [reflexivity|]. split; [reflexivity|].
  exact (X7_kbuild_file_of_a_stopped_run (parse "out") (parse "c/mod.ko")
           (parse "c/notes.txt")
           [parse "a/b/c/mod.c"; parse "a/b/c/notes.txt"; parse "a/b/c/helper.c"]
           [parse "c/mod.c"] [parse "c/helper.c"] [parse "inc"] []
           (parse "a/b") ["FOO=1"] None empty_fs
           eq_refl H1 eq_refl eq_refl eq_refl eq_refl eq_refl eq_refl).
Defined.

Lemma X8_top_level_kbuild_witness :
  tree_safe (parse "out") (parse "c/mod.ko") = true
  /\ names (parent (parse "c/mod.ko")) <> []
  /\ top_kbuild_of (parse "out") <> kbuild_of (parse "out") (parse "c/mod.ko")
  /\ fst (run (gen_ddk_makefile (parse "out") (parse "c/mod.ko")
                 [parse "a/b/c/mod.c"] [] [] (parse "a/b") [] None) empty_fs)
         (top_kbuild_of (parse "out"))
     = match snd (run (gen_ddk_makefile (parse "out") (parse "c/mod.ko")
                         [parse "a/b/c/mod.c"] [] [] (parse "a/b") [] None)
                      empty_fs) with
       | None =>
           Some ("# Build " ++ str (joinpath (parse "a/b") (parse "c/mod.ko"))
                   ++ nl ++
                 "obj-y += " ++ str (parent (parse "c/mod.ko")) ++ "/" ++ nl)
       | Some _ => empty_fs (top_kbuild_of (parse "out"))
       end.
Proof.
  assert (H1 : tree_safe (parse "out") (parse "c/mod.ko") = true)
    by reflexivity.
  assert (H2 : names (parent (parse "c/mod.ko")) <> []) by discriminate.
  split; [exact H1|]. split; [exact H2|].
  exact (proj2 (X8_top_level_kbuild (parse "out") (parse "c/mod.ko")
                  [parse "a/b/c/mod.c"] [] [] (parse "a/b") [] None empty_fs
                  H1 eq_refl eq_refl) H2).
Defined.

Lemma X9_source_outside_package_ignored_witness :
  is_relative_to (parse "x/y.txt") (parse "a/b") = false
  /\ run (gen_ddk_makefile (parse "out") (parse "c/mod.ko")
            ([parse "a/b/c/mod.c"] ++ parse "x/y.txt" :: [parse "a/b/c/helper.c"])%list
            [] [] (parse "a/b") [] None) empty_fs
     = run (gen_ddk_makefile (parse "out") (parse "c/mod.ko")
              ([parse "a/b/c/mod.c"] ++ [parse "a/b/c/helper.c"])%list
              [] [] (parse "a/b") [] None) empty_fs.
Proof.
  assert (H : is_relative_to (parse "x/y.txt") (parse "a/b") = false)
    by reflexivity.
  split; [exact H|].
  exact (X9_source_outside_package_ignored (parse "out") (parse "c/mod.ko")
           (parse "x/y.txt") [parse "a/b/c/mod.c"] [parse "a/b/c/helper.c"]
           [] [] (parse "a/b") [] None empty_fs H).
Defined.

Lemma X10_object_path_keeps_subdirectories_witness :
  relative_to (parse "a/b/c/arch/arm/entry.S") (parse "a/b")
  = Ok (parse "c/arch/arm/entry.S")
  /\ names (parse "c/arch/arm/entry.S")
     = (names (parent (parse "c/mod.ko")) ++ ["arch"; "arm"] ++ ["entry.S"])%list
  /\ kbuild_src (parse "a/b") (parse "c/mod.ko") (parse "c/arch/arm/entry.S") ""
     = ("# Source: a/b/c/arch/arm/entry.S" ++ nl ++
        "mod-y += arch/arm/entry.o" ++ nl,
        Ok tt).
Proof.
  assert (N : with_suffix (parse "c/arch/arm/entry.S") ".ko"
              <> Ok (parse "c/mod.ko"))
    by (intros H; discriminate H).
  split; [reflexivity|]. split; [reflexivity|].
  rewrite (X10_object_path_keeps_subdirectories (parse "a/b") (parse "c/mod.ko")
             (parse "a/b/c/arch/arm/entry.S") (parse "c/arch/arm/entry.S")
             ["arch"; "arm"] "entry.S" ""
             eq_refl eq_refl eq_refl eq_refl N eq_refl eq_refl eq_refl).
  reflexivity.
Defined.

Lemma X11_relative_roots_are_double_dots_witness :
  parts (parse "a/b/c") <> []
  /\ exists rel_root,
       OsPath.join (repeat ".." (List.length (parts (parse "a/b/c"))))
       = Ok rel_root
       /\ split "/"%char rel_root
          = repeat ".." (List.length (parts (parse "a/b/c"))).
Proof.
  assert (H : parts (parse "a/b/c") <> []) by discriminate.
  split; [exact H|].
  exact (proj1 (X11_relative_roots_are_double_dots (parse "a/b/c")
                  (parse "mod.ko")) H).
Defined.

End MoreWitnesses.
